(** * Slot-miner mini-app: global spin activity hook and local spin lifecycle

    A shallow embedding of

      - [src/hooks/use-global-spin.ts]  (the [useGlobalSpin] hook), and
      - the page component [DonutardioPage] (spin handler, receipt effect,
        win detectors),

    followed by the properties of the two state machines.

    React state cells and refs become fields of a record; a handler becomes
    a function from record to record.  Everything the handlers obtain from
    the outside (the clock, RPC answers, the identity lookup, the wallet) is
    an explicit argument.  [setTimeout]/[setInterval] are modelled by a table
    of armed timers kept next to the state, with the runtime rule that a
    timer never runs before it is due. *)

From Stdlib Require Import ZArith List String Ascii Bool Lia DecimalString.
Import ListNotations.
Open Scope Z_scope.

(** ** Values shared by both components *)

(** The result of awaiting a promise. *)
Inductive Fetch (A : Type) : Type :=
| Resolved (a : A)
| Rejected (err : string).
Arguments Resolved {A} a.
Arguments Rejected {A} err.

(** [bigint.toString()]: decimal digits, leading minus sign when negative. *)
Definition bigintToString (z : Z) : string :=
  NilZero.string_of_int (Z.to_int z).

(** [Number(b)] for a bigint [b]: the nearest double, ties to even.  Integers
    of at most 53 bits are exact; a longer one keeps its 53 leading bits.
    (Event arguments are uint256, far below the overflow threshold.) *)
Definition NumberOfBigInt (b : Z) : Z :=
  let a := Z.abs b in
  let shift := Z.log2 a - 52 in
  if shift <=? 0 then b
  else
    let q := Z.shiftr a shift in
    let r := Z.land a (Z.ones shift) in
    let half := Z.shiftl 1 (shift - 1) in
    let q' := if (half <? r) || ((r =? half) && Z.odd q) then q + 1 else q in
    Z.sgn b * Z.shiftl q' shift.

(** [String.prototype.toLowerCase] on the ASCII range (addresses are hex). *)
Definition lowerAscii (c : ascii) : ascii :=
  let n := nat_of_ascii c in
  if (Nat.leb 65 n && Nat.leb n 90)%bool then ascii_of_nat (n + 32) else c.

Fixpoint toLowerCase (s : string) : string :=
  match s with
  | EmptyString => EmptyString
  | String c rest => String (lowerAscii c) (toLowerCase rest)
  end.

(** Timer handles as the runtime hands them out: positive, hence truthy. *)
Definition Handle := positive.

(** ** [src/hooks/use-global-spin.ts] *)

Module GlobalSpin.

Inductive Tier := small | medium | big | mega | jackpot.

Record SlotSymbol := {
  emoji : string;
  name : string;
  oddsBps : Z;
  payout : string;
  tier : Tier
}.

Definition SLOT_SYMBOLS : list SlotSymbol :=
  [ {| emoji := "🍒"; name := "Cherry"; oddsBps := 100;
       payout := "1%"; tier := small |};
    {| emoji := "🍋"; name := "Lemon"; oddsBps := 200;
       payout := "2%"; tier := small |};
    {| emoji := "📊"; name := "Bar"; oddsBps := 500;
       payout := "5%"; tier := medium |};
    {| emoji := "🔔"; name := "Bell"; oddsBps := 1000;
       payout := "10%"; tier := big |};
    {| emoji := "7️⃣"; name := "Seven"; oddsBps := 2500;
       payout := "25%"; tier := mega |};
    {| emoji := "💎"; name := "Diamond"; oddsBps := 5000;
       payout := "50%"; tier := jackpot |} ].

Definition SPIN_TIMEOUT_MS : Z := 120000.

Record UserInfo := {
  username : option string;
  displayName : option string;
  pfpUrl : option string
}.

Record GlobalSpinState := {
  spin_id : string;
  spin_spinner : string;
  spin_epochId : Z;
  spin_timestamp : Z;
  spin_user : option UserInfo
}.

Record GlobalWinState := {
  win_id : string;
  win_spinner : string;
  win_epochId : Z;
  win_oddsBps : Z;
  win_amount : Z;
  win_timestamp : Z;
  win_user : option UserInfo;
  win_symbol : SlotSymbol;
  win_amountFormatted : string;
  win_usdValue : string
}.

(** [SLOT_SYMBOLS.find(s => s.oddsBps === oddsBps) ?? SLOT_SYMBOLS[0]] *)
Definition getSymbolFromOdds (odds : Z) : SlotSymbol :=
  match find (fun s => oddsBps s =? odds) SLOT_SYMBOLS with
  | Some s => s
  | None => nth 0 SLOT_SYMBOLS
              {| emoji := ""; name := ""; oddsBps := 0; payout := ""; tier := small |}
  end.

(** The two display strings of a win are produced with floating point
    ([Number], [toFixed]); they depend on the amount only and are kept
    abstract. *)
Class Formatting := {
  formatAmount : Z -> string;
  usdValueOf : Z -> string
}.

(** Raw logs as delivered by the chain client. *)
Record SpinLog := {
  sl_sender : string;
  sl_spinner : string;
  sl_epochId : Z;
  sl_price : Z;
  sl_transactionHash : string
}.

Record WinLog := {
  wl_spinner : string;
  wl_epochId : Z;
  wl_oddsPercent : Z;
  wl_amount : Z;
  wl_transactionHash : string;
  wl_blockNumber : Z
}.

(** What a pending [setTimeout] will run. *)
Inductive Callback :=
| ExpireSpin (id : string)   (* the spin handler's auto-clear closure *)
| HideWin.                   (* the win handler's hide-result closure *)

Record Timer := {
  t_handle : Handle;
  t_due : Z;
  t_callback : Callback
}.

(** The hook's cells ([useState]), refs ([useRef]), the timers it has armed
    and what it wrote with [console.error]. *)
Record Hook := {
  activeSpin : option GlobalSpinState;
  lastWin : option GlobalWinState;
  isGlobalSpinning : bool;
  showWinResult : bool;
  spinTimeoutRef : option Handle;
  winDisplayRef : option Handle;
  hasFetchedInitial : bool;
  timers : list Timer;
  nextHandle : Handle;
  console : list string
}.

Definition initial : Hook := {|
  activeSpin := None;
  lastWin := None;
  isGlobalSpinning := false;
  showWinResult := false;
  spinTimeoutRef := None;
  winDisplayRef := None;
  hasFetchedInitial := false;
  timers := [];
  nextHandle := 1%positive;
  console := []
|}.

(** Field updates ([setX(v)], [ref.current = v]). *)
Definition setActiveSpin (v : option GlobalSpinState) (h : Hook) : Hook :=
  {| activeSpin := v; lastWin := lastWin h;
     isGlobalSpinning := isGlobalSpinning h; showWinResult := showWinResult h;
     spinTimeoutRef := spinTimeoutRef h; winDisplayRef := winDisplayRef h;
     hasFetchedInitial := hasFetchedInitial h; timers := timers h;
     nextHandle := nextHandle h; console := console h |}.

Definition setLastWin (v : option GlobalWinState) (h : Hook) : Hook :=
  {| activeSpin := activeSpin h; lastWin := v;
     isGlobalSpinning := isGlobalSpinning h; showWinResult := showWinResult h;
     spinTimeoutRef := spinTimeoutRef h; winDisplayRef := winDisplayRef h;
     hasFetchedInitial := hasFetchedInitial h; timers := timers h;
     nextHandle := nextHandle h; console := console h |}.

Definition setIsGlobalSpinning (v : bool) (h : Hook) : Hook :=
  {| activeSpin := activeSpin h; lastWin := lastWin h;
     isGlobalSpinning := v; showWinResult := showWinResult h;
     spinTimeoutRef := spinTimeoutRef h; winDisplayRef := winDisplayRef h;
     hasFetchedInitial := hasFetchedInitial h; timers := timers h;
     nextHandle := nextHandle h; console := console h |}.

Definition setShowWinResult (v : bool) (h : Hook) : Hook :=
  {| activeSpin := activeSpin h; lastWin := lastWin h;
     isGlobalSpinning := isGlobalSpinning h; showWinResult := v;
     spinTimeoutRef := spinTimeoutRef h; winDisplayRef := winDisplayRef h;
     hasFetchedInitial := hasFetchedInitial h; timers := timers h;
     nextHandle := nextHandle h; console := console h |}.

Definition setSpinTimeoutRef (v : option Handle) (h : Hook) : Hook :=
  {| activeSpin := activeSpin h; lastWin := lastWin h;
     isGlobalSpinning := isGlobalSpinning h; showWinResult := showWinResult h;
     spinTimeoutRef := v; winDisplayRef := winDisplayRef h;
     hasFetchedInitial := hasFetchedInitial h; timers := timers h;
     nextHandle := nextHandle h; console := console h |}.

Definition setWinDisplayRef (v : option Handle) (h : Hook) : Hook :=
  {| activeSpin := activeSpin h; lastWin := lastWin h;
     isGlobalSpinning := isGlobalSpinning h; showWinResult := showWinResult h;
     spinTimeoutRef := spinTimeoutRef h; winDisplayRef := v;
     hasFetchedInitial := hasFetchedInitial h; timers := timers h;
     nextHandle := nextHandle h; console := console h |}.

Definition setHasFetchedInitial (v : bool) (h : Hook) : Hook :=
  {| activeSpin := activeSpin h; lastWin := lastWin h;
     isGlobalSpinning := isGlobalSpinning h; showWinResult := showWinResult h;
     spinTimeoutRef := spinTimeoutRef h; winDisplayRef := winDisplayRef h;
     hasFetchedInitial := v; timers := timers h;
     nextHandle := nextHandle h; console := console h |}.

Definition setTimers (v : list Timer) (h : Hook) : Hook :=
  {| activeSpin := activeSpin h; lastWin := lastWin h;
     isGlobalSpinning := isGlobalSpinning h; showWinResult := showWinResult h;
     spinTimeoutRef := spinTimeoutRef h; winDisplayRef := winDisplayRef h;
     hasFetchedInitial := hasFetchedInitial h; timers := v;
     nextHandle := nextHandle h; console := console h |}.

Definition setNextHandle (v : Handle) (h : Hook) : Hook :=
  {| activeSpin := activeSpin h; lastWin := lastWin h;
     isGlobalSpinning := isGlobalSpinning h; showWinResult := showWinResult h;
     spinTimeoutRef := spinTimeoutRef h; winDisplayRef := winDisplayRef h;
     hasFetchedInitial := hasFetchedInitial h; timers := timers h;
     nextHandle := v; console := console h |}.

Definition consoleError (msg : string) (h : Hook) : Hook :=
  {| activeSpin := activeSpin h; lastWin := lastWin h;
     isGlobalSpinning := isGlobalSpinning h; showWinResult := showWinResult h;
     spinTimeoutRef := spinTimeoutRef h; winDisplayRef := winDisplayRef h;
     hasFetchedInitial := hasFetchedInitial h; timers := timers h;
     nextHandle := nextHandle h; console := console h ++ [msg] |}.

(** *** The timer table *)

Definition isHandle (id : Handle) (t : Timer) : bool := Pos.eqb (t_handle t) id.

(** [setTimeout(cb, delay)] called when the clock reads [now]. *)
Definition setTimeout (cb : Callback) (delay now : Z) (h : Hook) : Handle * Hook :=
  let id := nextHandle h in
  let t := {| t_handle := id; t_due := now + delay; t_callback := cb |} in
  (id, setNextHandle (Pos.succ id) (setTimers (timers h ++ [t]) h)).

Definition clearTimeout (id : Handle) (h : Hook) : Hook :=
  setTimers (filter (fun t => negb (isHandle id t)) (timers h)) h.

(** [if (ref.current) clearTimeout(ref.current)] *)
Definition clearIfSet (ref : option Handle) (h : Hook) : Hook :=
  match ref with
  | Some id => clearTimeout id h
  | None => h
  end.

Definition armed (id : Handle) (h : Hook) : option Timer :=
  find (isHandle id) (timers h).

(** The bodies of the two closures passed to [setTimeout]. *)
Definition runCallback (cb : Callback) (h : Hook) : Hook :=
  match cb with
  | ExpireSpin id =>
      (* setActiveSpin(prev => prev?.id === id ? null : prev) *)
      let cleared :=
        match activeSpin h with
        | Some prev => if String.eqb (spin_id prev) id then None else Some prev
        | None => None
        end in
      setIsGlobalSpinning false (setActiveSpin cleared h)
  | HideWin => setShowWinResult false h
  end.

(** The runtime considers timer [id] when the clock reads [now]: an armed
    timer that is due runs once and leaves the table; one that is not yet
    due, or was cleared, does nothing. *)
Definition fireTimer (now : Z) (id : Handle) (h : Hook) : Hook :=
  match armed id h with
  | Some t =>
      if t_due t <=? now then runCallback (t_callback t) (clearTimeout id h)
      else h
  | None => h
  end.

(** *** The two event watchers

    Each [onLogs] is an async loop: for every log it updates the cells, awaits
    the identity lookup, and only then patches the user in and re-arms its
    timer.  One iteration is modelled by its two halves, before and after
    the [await]; other events may run between them. *)

(** One delivered log together with what the outside world answered while
    it was handled: the clock at the start, the lookup result, the clock
    when the handler resumed. *)
Record Delivery (L : Type) := {
  d_log : L;
  d_start : Z;
  d_user : option UserInfo;
  d_resumed : Z
}.
Arguments d_log {L} _.
Arguments d_start {L} _.
Arguments d_user {L} _.
Arguments d_resumed {L} _.

Section Handlers.
Context `{Formatting}.

Definition spinIdOf (log : SpinLog) : string :=
  ("spin-" ++ sl_spinner log ++ "-" ++ bigintToString (sl_epochId log))%string.

Definition winIdOf (log : WinLog) : string :=
  ("win-" ++ wl_spinner log ++ "-" ++ bigintToString (wl_epochId log)
     ++ "-" ++ wl_transactionHash log)%string.

Definition newSpinOf (now : Z) (log : SpinLog) : GlobalSpinState :=
  {| spin_id := spinIdOf log;
     spin_spinner := sl_spinner log;
     spin_epochId := sl_epochId log;
     spin_timestamp := now;
     spin_user := None |}.

Definition newWinOf (now : Z) (log : WinLog) : GlobalWinState :=
  {| win_id := winIdOf log;
     win_spinner := wl_spinner log;
     win_epochId := wl_epochId log;
     win_oddsBps := NumberOfBigInt (wl_oddsPercent log);
     win_amount := wl_amount log;
     win_timestamp := now;
     win_user := None;
     win_symbol := getSymbolFromOdds (NumberOfBigInt (wl_oddsPercent log));
     win_amountFormatted := formatAmount (wl_amount log);
     win_usdValue := usdValueOf (wl_amount log) |}.

(** [prev => prev?.id === id ? { ...prev, user } : prev] *)
Definition patchSpinUser (id : string) (u : UserInfo)
    (prev : option GlobalSpinState) : option GlobalSpinState :=
  match prev with
  | Some p =>
      if String.eqb (spin_id p) id then
        Some {| spin_id := spin_id p; spin_spinner := spin_spinner p;
                spin_epochId := spin_epochId p;
                spin_timestamp := spin_timestamp p; spin_user := Some u |}
      else prev
  | None => None
  end.

Definition patchWinUser (id : string) (u : UserInfo)
    (prev : option GlobalWinState) : option GlobalWinState :=
  match prev with
  | Some p =>
      if String.eqb (win_id p) id then
        Some {| win_id := win_id p; win_spinner := win_spinner p;
                win_epochId := win_epochId p; win_oddsBps := win_oddsBps p;
                win_amount := win_amount p; win_timestamp := win_timestamp p;
                win_user := Some u; win_symbol := win_symbol p;
                win_amountFormatted := win_amountFormatted p;
                win_usdValue := win_usdValue p |}
      else prev
  | None => None
  end.

(** Rig__Spin watcher, one log, up to [await fetchUserByAddress]. *)
Definition spinLogBegin (now : Z) (log : SpinLog) (h : Hook) : Hook :=
  setShowWinResult false
    (setIsGlobalSpinning true
       (setActiveSpin (Some (newSpinOf now log)) h)).

(** Rig__Spin watcher, the same log, after the lookup answered [user]. *)
Definition spinLogResume (now : Z) (log : SpinLog) (user : option UserInfo)
    (h : Hook) : Hook :=
  let id := spinIdOf log in
  let h1 := match user with
            | Some u => setActiveSpin (patchSpinUser id u (activeSpin h)) h
            | None => h
            end in
  let h2 := clearIfSet (spinTimeoutRef h1) h1 in
  let (t, h3) := setTimeout (ExpireSpin id) SPIN_TIMEOUT_MS now h2 in
  setSpinTimeoutRef (Some t) h3.

(** Rig__Win watcher, one log, up to the [await]. *)
Definition winLogBegin (now : Z) (log : WinLog) (h : Hook) : Hook :=
  let h1 := clearIfSet (spinTimeoutRef h) h in
  let h2 := setIsGlobalSpinning false (setActiveSpin None h1) in
  setShowWinResult true (setLastWin (Some (newWinOf now log)) h2).

(** Rig__Win watcher, the same log, after the lookup answered [user]. *)
Definition winLogResume (now : Z) (log : WinLog) (user : option UserInfo)
    (h : Hook) : Hook :=
  let id := winIdOf log in
  let h1 := match user with
            | Some u => setLastWin (patchWinUser id u (lastWin h)) h
            | None => h
            end in
  let h2 := clearIfSet (winDisplayRef h1) h1 in
  let (t, h3) := setTimeout HideWin 10000 now h2 in
  setWinDisplayRef (Some t) h3.

(** An iteration that nothing interrupts. *)
Definition applySpin (d : Delivery SpinLog) (h : Hook) : Hook :=
  spinLogResume (d_resumed d) (d_log d) (d_user d)
    (spinLogBegin (d_start d) (d_log d) h).

Definition applyWin (d : Delivery WinLog) (h : Hook) : Hook :=
  winLogResume (d_resumed d) (d_log d) (d_user d)
    (winLogBegin (d_start d) (d_log d) h).

(** [for (const log of logs) { ... }] *)
Definition onSpinLogs (ds : list (Delivery SpinLog)) (h : Hook) : Hook :=
  fold_left (fun acc d => applySpin d acc) ds h.

Definition onWinLogs (ds : list (Delivery WinLog)) (h : Hook) : Hook :=
  fold_left (fun acc d => applyWin d acc) ds h.

(** *** The mount effect: one fetch of the most recent win *)

(** The chain client: [getBlockNumber()] and [getLogs] per event. *)
Record PublicClient := {
  getBlockNumber : Fetch Z;
  getWinLogs : Z -> Z -> Fetch (list WinLog);
  getSpinLogs : Z -> Z -> Fetch (list SpinLog)
}.

(** [logs.length > 0 ? logs[logs.length - 1] : nothing] *)
Definition latestOf (logs : list WinLog) : option WinLog :=
  nth_error logs (List.length logs - 1)%nat.

Definition fetchFailed (err : string) (h : Hook) : Hook :=
  consoleError ("Failed to fetch recent win: " ++ err)%string h.

(** The async body [fetchRecentWin], run against the client's answers. *)
Definition fetchRecentWin (now : Z) (client : PublicClient)
    (user : option UserInfo) (h : Hook) : Hook :=
  match getBlockNumber client with
  | Rejected err => fetchFailed err h
  | Resolved currentBlock =>
      let fromBlock := currentBlock - 1800 in
      match getWinLogs client (if 0 <? fromBlock then fromBlock else 0)
                       currentBlock with
      | Rejected err => fetchFailed err h
      | Resolved logs =>
          match latestOf logs with
          | None => h
          | Some latestLog =>
              let h1 := setLastWin (Some (newWinOf now latestLog)) h in
              match user with
              | Some u =>
                  setLastWin (patchWinUser (winIdOf latestLog) u (lastWin h1)) h1
              | None => h1
              end
          end
      end
  end.

(** The effect itself: guarded by the [hasFetchedInitial] ref, which it sets
    before launching the fetch.  Returns the fetch it launched, if any. *)
Definition mountEffect (publicClient : option PublicClient) (h : Hook)
    : Hook * option PublicClient :=
  match publicClient with
  | Some client =>
      if hasFetchedInitial h then (h, None)
      else (setHasFetchedInitial true h, Some client)
  | None => (h, None)
  end.

(** The effect followed at once by the completion of its fetch. *)
Definition runMountEffect (now : Z) (publicClient : option PublicClient)
    (user : option UserInfo) (h : Hook) : Hook :=
  match mountEffect publicClient h with
  | (h', Some client) => fetchRecentWin now client user h'
  | (h', None) => h'
  end.

End Handlers.

(** What [ActivityFeed] renders from the hook's cells. *)
Inductive Shown :=
| ShowSpinning (spin : GlobalSpinState)
| ShowWin (win : GlobalWinState) (isRecent : bool)
| ShowEmpty.

Definition ActivityFeed (h : Hook) : Shown :=
  match isGlobalSpinning h, activeSpin h with
  | true, Some spin => ShowSpinning spin
  | _, _ =>
      match lastWin h with
      | Some win => ShowWin win (showWinResult h)
      | None => ShowEmpty
      end
  end.

(** *** Bookkeeping invariant of the timer table

    Every armed timer carries a handle that was already handed out, and is
    the one its ref points to: the liveness timer through [spinTimeoutRef],
    the display timer through [winDisplayRef]. *)

Definition refFor (cb : Callback) (h : Hook) : option Handle :=
  match cb with
  | ExpireSpin _ => spinTimeoutRef h
  | HideWin => winDisplayRef h
  end.

Definition timerOk (h : Hook) (t : Timer) : Prop :=
  (t_handle t < nextHandle h)%positive /\
  refFor (t_callback t) h = Some (t_handle t).

Definition consistent (h : Hook) : Prop := Forall (timerOk h) (timers h).

(** The timers still in the table once the one behind [ref] is cleared. *)
Definition survivors (ref : option Handle) (l : list Timer) : list Timer :=
  match ref with
  | Some id => filter (fun t => negb (isHandle id t)) l
  | None => l
  end.

(** The four cells the hook returns to its callers. *)
Definition cells (h : Hook)
    : option GlobalSpinState * option GlobalWinState * bool * bool :=
  (activeSpin h, lastWin h, isGlobalSpinning h, showWinResult h).

Definition spinWithUser (user : option UserInfo) (p : GlobalSpinState)
    : GlobalSpinState :=
  {| spin_id := spin_id p; spin_spinner := spin_spinner p;
     spin_epochId := spin_epochId p; spin_timestamp := spin_timestamp p;
     spin_user := user |}.

Definition winWithUser (user : option UserInfo) (p : GlobalWinState)
    : GlobalWinState :=
  {| win_id := win_id p; win_spinner := win_spinner p;
     win_epochId := win_epochId p; win_oddsBps := win_oddsBps p;
     win_amount := win_amount p; win_timestamp := win_timestamp p;
     win_user := user; win_symbol := win_symbol p;
     win_amountFormatted := win_amountFormatted p;
     win_usdValue := win_usdValue p |}.

(** *** Concrete data used to run the model *)

(** A stand-in for the display formatting: print the raw integer. *)
Definition rawFormatting : Formatting :=
  {| formatAmount := bigintToString; usdValueOf := bigintToString |}.

(** A client over a fixed list of Win logs at a fixed head block. *)
Definition chainAt (head : Z) (wins : list WinLog) : PublicClient :=
  {| getBlockNumber := Resolved head;
     getWinLogs := fun fromBlock toBlock =>
       Resolved (filter (fun l => (fromBlock <=? wl_blockNumber l)
                                  && (wl_blockNumber l <=? toBlock)) wins);
     getSpinLogs := fun _ _ => Resolved [] |}.

(** A client whose node is unreachable. *)
Definition offline : PublicClient :=
  {| getBlockNumber := Rejected "network error";
     getWinLogs := fun _ _ => Rejected "network error";
     getSpinLogs := fun _ _ => Rejected "network error" |}.

Definition alice : string := "0xA11ce00000000000000000000000000000000001".
Definition bob : string := "0xB0b0000000000000000000000000000000000002".

(** The historical win of the backfill scenario. *)
Definition jackpotLog : WinLog :=
  {| wl_spinner := alice; wl_epochId := 41; wl_oddsPercent := 5000;
     wl_amount := 500 * 10 ^ 18; wl_transactionHash := "0xfeed";
     wl_blockNumber := 950 |}.

Definition bobSpinLog : SpinLog :=
  {| sl_sender := bob; sl_spinner := bob; sl_epochId := 42; sl_price := 1000;
     sl_transactionHash := "0xbeef" |}.

Definition delivered {L : Type} (log : L) (now : Z) : Delivery L :=
  {| d_log := log; d_start := now; d_user := None; d_resumed := now |}.

End GlobalSpin.

(** ** The page component [DonutardioPage]: the user's own spin *)

Module Page.

Inductive SpinState := idle | pending | confirming | waiting_vrf.

Definition SpinState_eqb (a b : SpinState) : bool :=
  match a, b with
  | idle, idle | pending, pending | confirming, confirming
  | waiting_vrf, waiting_vrf => true
  | _, _ => false
  end.

Record RigState := {
  ups : Z;
  unitPrice : Z;
  unitBalance : Z;
  ethBalance : Z;
  wethBalance : Z;
  prizePool : Z;
  pendingEmissions : Z;
  epochId : Z;
  price : Z
}.

Definition DEADLINE_BUFFER_SECONDS : Z := 15 * 60.
Definition VRF_TIMEOUT_MS : Z := 120000.
Definition BALANCE_POLL_INTERVAL_MS : Z := 2000.

(** What a render reads from the wallet and contract hooks. *)
Record Reads := {
  address : option string;          (* useAccount().address *)
  primaryConnector : bool;          (* connectors[0] is present *)
  rigState : option RigState;       (* getRig, refetched every 3 s *)
  entropyFee : option Z             (* getEntropyFee *)
}.

(** Calls the component makes on its collaborators, in order. *)
Inductive Effect :=
| ConsoleLog (msg : string)
| ConsoleError (msg : string)
| ConnectAsync
| WriteContract (account : string) (epoch deadline maxPrice value : Z)
| ResetWrite
| RefetchRigState.

Inductive Callback :=
| VrfExpired      (* the closure given to setTimeout in the receipt effect *)
| PollBalance.    (* the closure given to setInterval in the receipt effect *)

Record Timer := {
  t_handle : Handle;
  t_due : Z;
  t_every : option Z;               (* the period, for setInterval *)
  t_callback : Callback
}.

Record State := {
  localSpinState : SpinState;
  pendingEpochId : option Z;
  vrfTimeoutRef : option Handle;
  balancePollRef : option Handle;
  preSpinBalanceRef : option Z;
  timers : list Timer;
  nextHandle : Handle;
  effects : list Effect
}.

Definition initial : State := {|
  localSpinState := idle;
  pendingEpochId := None;
  vrfTimeoutRef := None;
  balancePollRef := None;
  preSpinBalanceRef := None;
  timers := [];
  nextHandle := 1%positive;
  effects := []
|}.

Definition setLocalSpinState (v : SpinState) (s : State) : State :=
  {| localSpinState := v; pendingEpochId := pendingEpochId s;
     vrfTimeoutRef := vrfTimeoutRef s; balancePollRef := balancePollRef s;
     preSpinBalanceRef := preSpinBalanceRef s; timers := timers s;
     nextHandle := nextHandle s; effects := effects s |}.

Definition setPendingEpochId (v : option Z) (s : State) : State :=
  {| localSpinState := localSpinState s; pendingEpochId := v;
     vrfTimeoutRef := vrfTimeoutRef s; balancePollRef := balancePollRef s;
     preSpinBalanceRef := preSpinBalanceRef s; timers := timers s;
     nextHandle := nextHandle s; effects := effects s |}.

Definition setVrfTimeoutRef (v : option Handle) (s : State) : State :=
  {| localSpinState := localSpinState s; pendingEpochId := pendingEpochId s;
     vrfTimeoutRef := v; balancePollRef := balancePollRef s;
     preSpinBalanceRef := preSpinBalanceRef s; timers := timers s;
     nextHandle := nextHandle s; effects := effects s |}.

Definition setBalancePollRef (v : option Handle) (s : State) : State :=
  {| localSpinState := localSpinState s; pendingEpochId := pendingEpochId s;
     vrfTimeoutRef := vrfTimeoutRef s; balancePollRef := v;
     preSpinBalanceRef := preSpinBalanceRef s; timers := timers s;
     nextHandle := nextHandle s; effects := effects s |}.

Definition setPreSpinBalanceRef (v : option Z) (s : State) : State :=
  {| localSpinState := localSpinState s; pendingEpochId := pendingEpochId s;
     vrfTimeoutRef := vrfTimeoutRef s; balancePollRef := balancePollRef s;
     preSpinBalanceRef := v; timers := timers s;
     nextHandle := nextHandle s; effects := effects s |}.

Definition setTimers (v : list Timer) (s : State) : State :=
  {| localSpinState := localSpinState s; pendingEpochId := pendingEpochId s;
     vrfTimeoutRef := vrfTimeoutRef s; balancePollRef := balancePollRef s;
     preSpinBalanceRef := preSpinBalanceRef s; timers := v;
     nextHandle := nextHandle s; effects := effects s |}.

Definition setNextHandle (v : Handle) (s : State) : State :=
  {| localSpinState := localSpinState s; pendingEpochId := pendingEpochId s;
     vrfTimeoutRef := vrfTimeoutRef s; balancePollRef := balancePollRef s;
     preSpinBalanceRef := preSpinBalanceRef s; timers := timers s;
     nextHandle := v; effects := effects s |}.

Definition emit (e : Effect) (s : State) : State :=
  {| localSpinState := localSpinState s; pendingEpochId := pendingEpochId s;
     vrfTimeoutRef := vrfTimeoutRef s; balancePollRef := balancePollRef s;
     preSpinBalanceRef := preSpinBalanceRef s; timers := timers s;
     nextHandle := nextHandle s; effects := effects s ++ [e] |}.

(** *** Timers and intervals *)

Definition isHandle (id : Handle) (t : Timer) : bool := Pos.eqb (t_handle t) id.

Definition arm (cb : Callback) (every : option Z) (delay now : Z) (s : State)
    : Handle * State :=
  let id := nextHandle s in
  let t := {| t_handle := id; t_due := now + delay; t_every := every;
              t_callback := cb |} in
  (id, setNextHandle (Pos.succ id) (setTimers (timers s ++ [t]) s)).

Definition setTimeout (cb : Callback) (delay now : Z) (s : State) :=
  arm cb None delay now s.

Definition setInterval (cb : Callback) (period now : Z) (s : State) :=
  arm cb (Some period) period now s.

(** [clearTimeout] and [clearInterval] alike. *)
Definition clearTimer (id : Handle) (s : State) : State :=
  setTimers (filter (fun t => negb (isHandle id t)) (timers s)) s.

Definition armed (id : Handle) (s : State) : option Timer :=
  find (isHandle id) (timers s).

(** *** Resolution: [handleWinDetected] and the three detectors *)

Definition handleWinDetected (s : State) : State :=
  let s1 := match vrfTimeoutRef s with
            | Some id => setVrfTimeoutRef None (clearTimer id s)
            | None => s
            end in
  let s2 := match balancePollRef s1 with
            | Some id => setBalancePollRef None (clearTimer id s1)
            | None => s1
            end in
  emit ResetWrite
    (emit RefetchRigState
       (setPreSpinBalanceRef None (setLocalSpinState idle s2))).

(** [!!address] *)
Definition present (a : option string) : bool :=
  match a with
  | Some EmptyString | None => false
  | Some _ => true
  end.

(** [spinner?.toLowerCase() === address?.toLowerCase()] for a log that
    carries its spinner. *)
Definition sameAddress (spinner : string) (a : option string) : bool :=
  match a with
  | Some mine => String.eqb (toLowerCase spinner) (toLowerCase mine)
  | None => false
  end.

(** The body of the page's Rig__Win [onLogs]: the first log of the user
    resolves and ends the loop. *)
Fixpoint scanWinLogs (r : Reads) (logs : list GlobalSpin.WinLog) (s : State)
    : State :=
  match logs with
  | [] => s
  | log :: rest =>
      if sameAddress (GlobalSpin.wl_spinner log) (address r)
         && SpinState_eqb (localSpinState s) waiting_vrf
      then handleWinDetected
             (emit (ConsoleLog "Win detected via event for current user") s)
      else scanWinLogs r rest s
  end.

(** [enabled: localSpinState === 'waiting_vrf' && !!address] *)
Definition watcherEnabled (r : Reads) (s : State) : bool :=
  SpinState_eqb (localSpinState s) waiting_vrf && present (address r).

(** Push-match detector: a batch of Win logs reaches the page's watcher. *)
Definition onWinLogs (r : Reads) (logs : list GlobalSpin.WinLog) (s : State)
    : State :=
  if watcherEnabled r s then scanWinLogs r logs s else s.

(** Balance-delta detector: the effect on [localSpinState], [rigState]. *)
Definition balanceEffect (r : Reads) (s : State) : State :=
  match localSpinState s, rigState r, preSpinBalanceRef s with
  | waiting_vrf, Some rig, Some preBalance =>
      if preBalance <? unitBalance rig
      then handleWinDetected
             (emit (ConsoleLog "Win detected via balance change") s)
      else s
  | _, _, _ => s
  end.

(** The bodies of the two timer closures. *)
Definition runCallback (cb : Callback) (s : State) : State :=
  match cb with
  | VrfExpired =>
      let s1 := match balancePollRef s with
                | Some id => setBalancePollRef None (clearTimer id s)
                | None => s
                end in
      emit RefetchRigState
        (emit ResetWrite
           (setPreSpinBalanceRef None (setLocalSpinState idle s1)))
  | PollBalance => emit RefetchRigState s
  end.

Definition reschedule (id : Handle) (due : Z) (s : State) : State :=
  setTimers
    (map (fun t => if isHandle id t
                   then {| t_handle := t_handle t; t_due := due;
                           t_every := t_every t; t_callback := t_callback t |}
                   else t)
         (timers s)) s.

(** The runtime considers timer [id] when the clock reads [now].  Nothing
    runs before its due time; a timeout runs once and is removed, an
    interval runs and is scheduled again one period later. *)
Definition fireTimer (now : Z) (id : Handle) (s : State) : State :=
  match armed id s with
  | Some t =>
      if t_due t <=? now then
        match t_every t with
        | None => runCallback (t_callback t) (clearTimer id s)
        | Some period =>
            runCallback (t_callback t) (reschedule id (t_due t + period) s)
        end
      else s
  | None => s
  end.

(** *** The receipt effect *)

Inductive ReceiptStatus := success | reverted.

Definition onReceipt (now : Z) (receipt : option ReceiptStatus) (s : State)
    : State :=
  match receipt with
  | None => s
  | Some success =>
      let s1 := setLocalSpinState waiting_vrf s in
      let (t, s2) := setTimeout VrfExpired VRF_TIMEOUT_MS now s1 in
      let s3 := setVrfTimeoutRef (Some t) s2 in
      let (i, s4) := setInterval PollBalance BALANCE_POLL_INTERVAL_MS now s3 in
      setBalancePollRef (Some i) s4
  | Some reverted =>
      emit ResetWrite (setPreSpinBalanceRef None (setLocalSpinState idle s))
  end.

(** *** [handleSpin]

    The body of the [try] block threads the state and may throw; [Try] is
    the corresponding state-and-exception monad. *)

Definition Try (A : Type) : Type := State -> Fetch A * State.

Definition ret {A} (a : A) : Try A := fun s => (Resolved a, s).
Definition throw {A} (err : string) : Try A := fun s => (Rejected err, s).
Definition bind {A B} (m : Try A) (k : A -> Try B) : Try B :=
  fun s =>
    match m s with
    | (Resolved a, s') => k a s'
    | (Rejected err, s') => (Rejected err, s')
    end.
Definition modify (f : State -> State) : Try unit :=
  fun s => (Resolved tt, f s).
(** [await p] where the promise settles as [outcome]. *)
Definition await {A} (outcome : Fetch A) : Try A :=
  fun s => (outcome, s).

Notation "x <- m ;; k" := (bind m (fun x => k))
  (at level 61, m at next level, right associativity).
Notation "m ;; k" := (bind m (fun _ => k))
  (at level 61, right associativity).

(** [accounts[0]], or the connected address when there is one; falsy
    values (undefined, the empty string) do not count. *)
Definition truthy (a : option string) : option string :=
  if present a then a else None.

Definition resolveTarget (r : Reads) (connect : Fetch (list string))
    : Try string :=
  match truthy (address r) with
  | Some target => ret target
  | None =>
      if primaryConnector r then
        modify (emit ConnectAsync) ;;
        accounts <- await connect ;;
        match truthy (hd_error accounts) with
        | Some target => ret target
        | None => throw "Unable to determine wallet address."
        end
      else throw "Wallet connector not available yet."
  end.

Definition trySpin (now : Z) (r : Reads) (rig : RigState)
    (connect : Fetch (list string)) (write : Fetch unit) : Try unit :=
  targetAddress <- resolveTarget r connect ;;
  modify (setLocalSpinState pending) ;;
  modify (setPreSpinBalanceRef (Some (unitBalance rig))) ;;
  let epoch := epochId rig in
  let deadline := now / 1000 + DEADLINE_BUFFER_SECONDS in
  let maxPrice := if price rig =? 0 then 0 else Z.quot (price rig * 105) 100 in
  let fee := match entropyFee r with Some f => f | None => 0 end in
  let totalValue := price rig + fee in
  modify (setPendingEpochId (Some epoch)) ;;
  modify (emit (WriteContract targetAddress epoch deadline maxPrice totalValue)) ;;
  await write ;;
  modify (setLocalSpinState confirming).

(** The click handler.  [connect] and [write] are how [connectAsync] and
    [writeContract] settle if they are called. *)
Definition handleSpin (now : Z) (r : Reads) (connect : Fetch (list string))
    (write : Fetch unit) (s : State) : State :=
  match rigState r with
  | None => s
  | Some rig =>
      if SpinState_eqb (localSpinState s) idle then
        match trySpin now r rig connect write s with
        | (Resolved _, s') => s'
        | (Rejected err, s') =>
            emit ResetWrite
              (setLocalSpinState idle
                 (emit (ConsoleError ("Spin failed: " ++ err)%string) s'))
        end
      else s
  end.

(** *** Events, for reasoning about runs *)

Inductive Event :=
| Click (now : Z) (r : Reads) (connect : Fetch (list string)) (write : Fetch unit)
| Receipt (now : Z) (receipt : option ReceiptStatus)
| WinLogs (r : Reads) (logs : list GlobalSpin.WinLog)
| Refreshed (r : Reads)
| TimerTick (now : Z) (id : Handle).

Definition step (e : Event) (s : State) : State :=
  match e with
  | Click now r connect write => handleSpin now r connect write s
  | Receipt now receipt => onReceipt now receipt s
  | WinLogs r logs => onWinLogs r logs s
  | Refreshed r => balanceEffect r s
  | TimerTick now id => fireTimer now id s
  end.

Definition run (es : list Event) (s : State) : State :=
  fold_left (fun acc e => step e acc) es s.


(** The resolved transition as [handleWinDetected] performs it from [s],
    after logging [msg]: back to idle, both refs and the snapshot cleared,
    the two timers out of the table, one refetch and one write reset. *)
Definition resolvedFrom (s s' : State) (msg : string) : Prop :=
  localSpinState s' = idle /\
  vrfTimeoutRef s' = None /\
  balancePollRef s' = None /\
  preSpinBalanceRef s' = None /\
  pendingEpochId s' = pendingEpochId s /\
  (forall id, vrfTimeoutRef s = Some id -> armed id s' = None) /\
  (forall id, balancePollRef s = Some id -> armed id s' = None) /\
  nextHandle s' = nextHandle s /\
  effects s' = effects s ++ [ConsoleLog msg; RefetchRigState; ResetWrite].

(** Events during which no detector fires, for a state that waits with
    hard-timeout [deadline] and balance [snapshot]: clicks, empty receipt
    updates, Win logs of other spinners, refreshes whose balance does not
    exceed the snapshot, and the runtime looking at timers before the
    deadline. *)
Definition quiet (deadline : Z) (snapshot : option Z) (e : Event) : bool :=
  match e with
  | Click _ _ _ _ => true
  | Receipt _ None => true
  | Receipt _ (Some _) => false
  | WinLogs r logs =>
      forallb (fun log => negb (sameAddress (GlobalSpin.wl_spinner log) (address r)))
              logs
  | Refreshed r =>
      match rigState r, snapshot with
      | Some rig, Some pre => unitBalance rig <=? pre
      | _, _ => true
      end
  | TimerTick now _ => now <? deadline
  end.

(** The waiting state between a successful receipt and its resolution. *)
Definition waiting (deadline : Z) (snapshot : option Z) (n : Handle) (s : State)
    : Prop :=
  localSpinState s = waiting_vrf /\
  preSpinBalanceRef s = snapshot /\
  vrfTimeoutRef s = Some n /\
  balancePollRef s = Some (Pos.succ n) /\
  exists nextPoll,
    timers s =
      [ {| t_handle := n; t_due := deadline; t_every := None;
           t_callback := VrfExpired |};
        {| t_handle := Pos.succ n; t_due := nextPoll;
           t_every := Some BALANCE_POLL_INTERVAL_MS;
           t_callback := PollBalance |} ].

(** Receipts are produced for the transaction being confirmed: an event is
    orderly when a settled receipt arrives in state [confirming] only. *)
Definition orderly (e : Event) (s : State) : bool :=
  match e with
  | Receipt _ (Some _) => SpinState_eqb (localSpinState s) confirming
  | _ => true
  end.

Fixpoint orderlyRun (es : list Event) (s : State) : bool :=
  match es with
  | [] => true
  | e :: rest => orderly e s && orderlyRun rest (step e s)
  end.

(** The timer table matches the state tag: while waiting it holds the hard
    timeout and the balance poll, both behind their refs; otherwise it is
    empty. *)
Definition settled (s : State) : Prop :=
  match localSpinState s with
  | waiting_vrf =>
      exists deadline n, waiting deadline (preSpinBalanceRef s) n s
  | _ => timers s = []
  end.

(** *** Concrete data used to run the model *)

Definition me : string := "0xA11ce00000000000000000000000000000000001".

Definition myRig : RigState :=
  {| ups := 4; unitPrice := 1; unitBalance := 100; ethBalance := 5000;
     wethBalance := 0; prizePool := 9000; pendingEmissions := 12;
     epochId := 7; price := 1000 |}.

Definition connected : Reads :=
  {| address := Some me; primaryConnector := true; rigState := Some myRig;
     entropyFee := Some 3 |}.


Definition confirmed : State :=
  handleSpin 1000000 connected (Resolved []) (Resolved tt) initial.

Definition awaitingVrf : State := onReceipt 1004000 (Some success) confirmed.

Definition myWin : GlobalSpin.WinLog :=
  {| GlobalSpin.wl_spinner := "0xa11CE00000000000000000000000000000000001";
     GlobalSpin.wl_epochId := 7; GlobalSpin.wl_oddsPercent := 100;
     GlobalSpin.wl_amount := 90; GlobalSpin.wl_transactionHash := "0xcafe";
     GlobalSpin.wl_blockNumber := 1200 |}.

Definition richer : Reads :=
  {| address := Some me; primaryConnector := true;
     rigState := Some {| ups := 4; unitPrice := 1; unitBalance := 190;
                         ethBalance := 4000; wethBalance := 0;
                         prizePool := 8910; pendingEmissions := 0;
                         epochId := 8; price := 1000 |};
     entropyFee := Some 3 |}.

(** Almost two minutes of waiting: a balance poll, a refresh without gain,
    somebody else's win, an impatient click, and the runtime looking at the
    hard timeout one millisecond early. *)
Definition uneventful : list Event :=
  [ TimerTick 1006000 2%positive;
    Refreshed connected;
    WinLogs connected
      [ {| GlobalSpin.wl_spinner := GlobalSpin.bob; GlobalSpin.wl_epochId := 6;
           GlobalSpin.wl_oddsPercent := 200; GlobalSpin.wl_amount := 180;
           GlobalSpin.wl_transactionHash := "0xd00d";
           GlobalSpin.wl_blockNumber := 1201 |} ];
    Click 1050000 connected (Resolved []) (Resolved tt);
    TimerTick 1123999 1%positive ].

End Page.

(** ** [useGlobalSpin] over time: unmount, and arbitrary interleavings *)

Module HookRuns.
Import GlobalSpin.

(** The cleanup returned by the hook's second effect. *)
Definition unmount (h : Hook) : Hook :=
  let h1 := clearIfSet (spinTimeoutRef h) h in
  clearIfSet (winDisplayRef h1) h1.

Definition isLiveness (t : Timer) : bool :=
  match t_callback t with
  | ExpireSpin _ => true
  | HideWin => false
  end.

Definition isDisplay (t : Timer) : bool :=
  match t_callback t with
  | ExpireSpin _ => false
  | HideWin => true
  end.

Section Events.
Context `{Formatting}.

(** Everything that can happen to the hook, one uninterrupted piece of
    code at a time: each half of a watcher iteration, the mount effect, the
    completion of its fetch, and the runtime looking at a timer. *)
Inductive Event :=
| SpinSeen (now : Z) (log : SpinLog)
| SpinResumed (now : Z) (log : SpinLog) (user : option UserInfo)
| WinSeen (now : Z) (log : WinLog)
| WinResumed (now : Z) (log : WinLog) (user : option UserInfo)
| Mounted (publicClient : option PublicClient)
| Fetched (now : Z) (client : PublicClient) (user : option UserInfo)
| Fired (now : Z) (id : Handle).

Definition step (e : Event) (h : Hook) : Hook :=
  match e with
  | SpinSeen now log => spinLogBegin now log h
  | SpinResumed now log user => spinLogResume now log user h
  | WinSeen now log => winLogBegin now log h
  | WinResumed now log user => winLogResume now log user h
  | Mounted publicClient => fst (mountEffect publicClient h)
  | Fetched now client user => fetchRecentWin now client user h
  | Fired now id => fireTimer now id h
  end.

Definition run (es : list Event) (h : Hook) : Hook :=
  fold_left (fun acc e => step e acc) es h.

End Events.

(** The timer table never holds two timers under one handle. *)
Definition tidy (h : Hook) : Prop :=
  consistent h /\ NoDup (map t_handle (timers h)).

End HookRuns.

(** ** The activity feed component (helpers of [ActivityFeed]) *)

Module Feed.
Import GlobalSpin.

Definition between (lo hi n : nat) : bool := Nat.leb lo n && Nat.leb n hi.

(** [String.prototype.toUpperCase] on the ASCII range. *)
Definition upperAscii (c : ascii) : ascii :=
  let n := nat_of_ascii c in
  if between 97 122 n then ascii_of_nat (n - 32) else c.

Fixpoint toUpperCase (s : string) : string :=
  match s with
  | EmptyString => EmptyString
  | String c rest => String (upperAscii c) (toUpperCase rest)
  end.

(** The character class [a-zA-Z0-9]. *)
Definition isAlnum (c : ascii) : bool :=
  let n := nat_of_ascii c in
  between 97 122 n || between 65 90 n || between 48 57 n.

(** [label.replace(/[^a-zA-Z0-9]/g, "")] *)
Fixpoint stripNonAlnum (s : string) : string :=
  match s with
  | EmptyString => EmptyString
  | String c rest =>
      if isAlnum c then String c (stripNonAlnum rest) else stripNonAlnum rest
  end.

(** [initialsFrom].  Strings are sequences of bytes here; the branch that
    keeps a label without any ASCII letter or digit slices bytes where the
    source slices UTF-16 units, which agrees on ASCII labels. *)
Definition initialsFrom (label : option string) : string :=
  match label with
  | None | Some EmptyString => "??"
  | Some l =>
      match stripNonAlnum l with
      | EmptyString => toUpperCase (substring 0 2 l)
      | stripped => toUpperCase (substring 0 2 stripped)
      end
  end.

(** [a || b] on a nullable string: null and the empty string are falsy. *)
Definition orElse (a : option string) (b : string) : string :=
  match a with
  | None | Some EmptyString => b
  | Some v => v
  end.

(** [s.slice(-n)] *)
Definition lastChars (n : nat) (s : string) : string :=
  substring (String.length s - n) n s.

(** [`${spinner.slice(0, 6)}...${spinner.slice(-4)}`] *)
Definition shortAddress (spinner : string) : string :=
  (substring 0 6 spinner ++ "..." ++ lastChars 4 spinner)%string.

(** [user?.displayName || user?.username || short address], as computed
    in [SpinningDisplay] and [WinDisplay]. *)
Definition displayNameOf (user : option UserInfo) (spinner : string) : string :=
  orElse (match user with Some u => displayName u | None => None end)
    (orElse (match user with Some u => username u | None => None end)
       (shortAddress spinner)).

Inductive Unit := Seconds | Minutes | Hours | Days.

Definition suffix (u : Unit) : string :=
  match u with
  | Seconds => "s ago"
  | Minutes => "m ago"
  | Hours => "h ago"
  | Days => "d ago"
  end.

(** The number and the unit [timeAgo] prints, with [Date.now()] given. *)
Definition timeAgoParts (now timestamp : Z) : Z * Unit :=
  let seconds := (now - timestamp) / 1000 in
  if seconds <? 60 then (seconds, Seconds)
  else
    let minutes := seconds / 60 in
    if minutes <? 60 then (minutes, Minutes)
    else
      let hours := minutes / 60 in
      if hours <? 24 then (hours, Hours)
      else (hours / 24, Days).

Definition timeAgo (now timestamp : Z) : string :=
  let (n, u) := timeAgoParts now timestamp in
  (bigintToString n ++ suffix u)%string.

(** Milliseconds in one unit. *)
Definition millis (u : Unit) : Z :=
  match u with
  | Seconds => 1000
  | Minutes => 60 * 1000
  | Hours => 60 * 60 * 1000
  | Days => 24 * 60 * 60 * 1000
  end.

(** The largest number [timeAgo] prints with a unit, if any. *)
Definition limit (u : Unit) : option Z :=
  match u with
  | Seconds => Some 59
  | Minutes => Some 59
  | Hours => Some 23
  | Days => None
  end.

(** The character class [A-Z0-9]. *)
Definition isUpperAlnum (c : ascii) : bool :=
  let n := nat_of_ascii c in
  between 65 90 n || between 48 57 n.

Fixpoint allChars (p : ascii -> bool) (s : string) : bool :=
  match s with
  | EmptyString => true
  | String c rest => p c && allChars p rest
  end.

(** No usable name came back from the identity lookup. *)
Definition anonymous (user : option UserInfo) : bool :=
  match user with
  | None => true
  | Some u =>
      match displayName u, username u with
      | (None | Some EmptyString), (None | Some EmptyString) => true
      | _, _ => false
      end
  end.

End Feed.

(** ** The page component: what it renders and its other effects *)

Module PageView.
Import Page.

(** *** Prize pool interpolation *)

(** What the interpolation effect sets when it (re)runs for [rigState]. *)
Definition poolOnRigState (r : option RigState) : option Z :=
  match r with
  | None => None
  | Some rig => Some (prizePool rig + pendingEmissions rig)
  end.

(** One run of the effect's one-second interval: [!prev] holds for null
    and for [0n]. *)
Definition poolTick (rig : RigState) (prev : option Z) : option Z :=
  if 0 <? ups rig then
    match prev with
    | None => Some (prizePool rig + pendingEmissions rig)
    | Some p =>
        if p =? 0 then Some (prizePool rig + pendingEmissions rig)
        else Some (p + ups rig)
    end
  else prev.

(** The displayed pool [n] seconds after a refresh delivered [rig]. *)
Definition poolAfter (rig : RigState) (n : nat) : option Z :=
  Nat.iter n (poolTick rig) (poolOnRigState (Some rig)).

(** *** The spin button *)

Definition buttonLabel (r : Reads) (s : State) : string :=
  match rigState r with
  | None => "Loading..."
  | Some _ =>
      match localSpinState s with
      | pending => "SPINNING..."
      | confirming => "CONFIRMING..."
      | waiting_vrf => "WAITING..."
      | idle => "SPIN"
      end
  end.

(** [isSpinDisabled]; [isWriting] and [isConfirming] come from the wallet
    hooks, [isGlobalSpinning] from the global activity hook. *)
Definition isSpinDisabled (r : Reads) (isWriting isConfirming isGlobalSpinning : bool)
    (s : State) : bool :=
  match rigState r with
  | None => true
  | Some rig =>
      negb (SpinState_eqb (localSpinState s) idle)
      || isWriting || isConfirming || isGlobalSpinning
      || (ethBalance rig <? price rig)
  end.

(** [isSpinning]: somebody's spin is live, or the user's own is in flight. *)
Definition isSpinning (isGlobalSpinning : bool) (s : State) : bool :=
  isGlobalSpinning
  || SpinState_eqb (localSpinState s) pending
  || SpinState_eqb (localSpinState s) confirming
  || SpinState_eqb (localSpinState s) waiting_vrf.

(** [displaySymbol]: nothing while spinning, else the last win's symbol. *)
Definition displaySymbol (isGlobalSpinning : bool)
    (lastWin : option GlobalSpin.GlobalWinState) (s : State)
    : option GlobalSpin.SlotSymbol :=
  if isSpinning isGlobalSpinning s then None
  else match lastWin with
       | Some w => Some (GlobalSpin.win_symbol w)
       | None => None
       end.

(** *** Cleanup on unmount *)

Definition unmount (s : State) : State :=
  let s1 := match vrfTimeoutRef s with
            | Some id => clearTimer id s
            | None => s
            end in
  match balancePollRef s1 with
  | Some id => clearTimer id s1
  | None => s1
  end.

(** *** Run-once guards: SDK ready and auto-connect *)

Inductive BootCall := Ready | Connect.

Record Boot := {
  readyRef : bool;
  autoConnectAttempted : bool;
  bootCalls : list BootCall
}.

Definition booting : Boot :=
  {| readyRef := false; autoConnectAttempted := false; bootCalls := [] |}.

Definition markReady (b : Boot) : Boot :=
  {| readyRef := true; autoConnectAttempted := autoConnectAttempted b;
     bootCalls := bootCalls b ++ [Ready] |}.

(** The callback of the 1200 ms timeout armed on mount. *)
Definition readyTimeout (b : Boot) : Boot :=
  if readyRef b then b else markReady b.

(** The effect on [rigState]. *)
Definition readyOnRigState (r : option RigState) (b : Boot) : Boot :=
  match r with
  | Some _ => if readyRef b then b else markReady b
  | None => b
  end.

(** The auto-connect effect, run with the wallet hooks' current values. *)
Definition autoConnectEffect (isConnected hasConnector isConnecting : bool)
    (b : Boot) : Boot :=
  if autoConnectAttempted b || isConnected || negb hasConnector || isConnecting
  then b
  else {| readyRef := readyRef b; autoConnectAttempted := true;
          bootCalls := bootCalls b ++ [Connect] |}.

Inductive BootEvent :=
| ReadyTimeout
| RigStateChanged (r : option RigState)
| WalletChanged (isConnected hasConnector isConnecting : bool).

Definition bootStep (e : BootEvent) (b : Boot) : Boot :=
  match e with
  | ReadyTimeout => readyTimeout b
  | RigStateChanged r => readyOnRigState r b
  | WalletChanged c k p => autoConnectEffect c k p b
  end.

Definition bootRun (es : list BootEvent) (b : Boot) : Boot :=
  fold_left (fun acc e => bootStep e acc) es b.

Definition isReady (c : BootCall) : bool :=
  match c with Ready => true | Connect => false end.

Definition isConnect (c : BootCall) : bool :=
  match c with Ready => false | Connect => true end.

(** An event after which the SDK must have been told the app is ready. *)
Definition readies (e : BootEvent) : bool :=
  match e with
  | ReadyTimeout => true
  | RigStateChanged (Some _) => true
  | _ => false
  end.

(** A wallet update on which the auto-connect effect would connect. *)
Definition connects (e : BootEvent) : bool :=
  match e with
  | WalletChanged isConnected hasConnector isConnecting =>
      negb isConnected && hasConnector && negb isConnecting
  | _ => false
  end.

(** A short session: submit, receipt, one balance poll, the user's win. *)
Definition session : list Event :=
  [ Click 1000000 connected (Resolved []) (Resolved tt);
    Receipt 1004000 (Some success);
    TimerTick 1006000 2%positive;
    WinLogs connected [myWin] ].

(** The last call recorded is a write with these arguments. *)
Definition lastWrite (s : State) : option Effect :=
  match rev (effects s) with
  | WriteContract a e d m v :: _ => Some (WriteContract a e d m v)
  | _ => None
  end.

End PageView.

(** ** The polling variant of [useGlobalSpin]

    The hook as written in the third document of
    [src/components/donut-icon.tsx]: no event watchers; a poll every two
    seconds reads the head block and the logs since the last processed
    block.  The records of spins and wins, the symbol table and the id
    formats are the ones of the watcher variant. *)

Module Poller.

Definition POLL_INTERVAL_MS : Z := 2000.

Inductive Callback :=
| ExpireSpin (id : string)
| HideWin
| PollForEvents.

Record Timer := {
  t_handle : Handle;
  t_due : Z;
  t_every : option Z;
  t_callback : Callback
}.

(** Cells, refs, whether the polling effect has a cleanup to run, the
    timer table, and the console. *)
Record Hook := {
  activeSpin : option GlobalSpin.GlobalSpinState;
  lastWin : option GlobalSpin.GlobalWinState;
  isGlobalSpinning : bool;
  showWinResult : bool;
  lastProcessedBlockRef : option Z;
  lastWinIdRef : option string;
  spinTimeoutRef : option Handle;
  winDisplayRef : option Handle;
  pollIntervalRef : option Handle;
  pollCleanup : bool;
  timers : list Timer;
  nextHandle : Handle;
  console : list string
}.

Definition initial : Hook := {|
  activeSpin := None;
  lastWin := None;
  isGlobalSpinning := false;
  showWinResult := false;
  lastProcessedBlockRef := None;
  lastWinIdRef := None;
  spinTimeoutRef := None;
  winDisplayRef := None;
  pollIntervalRef := None;
  pollCleanup := false;
  timers := [];
  nextHandle := 1%positive;
  console := []
|}.

Definition setActiveSpin (v : option GlobalSpin.GlobalSpinState) (h : Hook) : Hook :=
  {| activeSpin := v; lastWin := lastWin h;
     isGlobalSpinning := isGlobalSpinning h;
     showWinResult := showWinResult h;
     lastProcessedBlockRef := lastProcessedBlockRef h;
     lastWinIdRef := lastWinIdRef h; spinTimeoutRef := spinTimeoutRef h;
     winDisplayRef := winDisplayRef h; pollIntervalRef := pollIntervalRef h;
     pollCleanup := pollCleanup h; timers := timers h;
     nextHandle := nextHandle h; console := console h |}.

Definition setLastWin (v : option GlobalSpin.GlobalWinState) (h : Hook) : Hook :=
  {| activeSpin := activeSpin h; lastWin := v;
     isGlobalSpinning := isGlobalSpinning h;
     showWinResult := showWinResult h;
     lastProcessedBlockRef := lastProcessedBlockRef h;
     lastWinIdRef := lastWinIdRef h; spinTimeoutRef := spinTimeoutRef h;
     winDisplayRef := winDisplayRef h; pollIntervalRef := pollIntervalRef h;
     pollCleanup := pollCleanup h; timers := timers h;
     nextHandle := nextHandle h; console := console h |}.

Definition setIsGlobalSpinning (v : bool) (h : Hook) : Hook :=
  {| activeSpin := activeSpin h; lastWin := lastWin h; isGlobalSpinning := v;
     showWinResult := showWinResult h;
     lastProcessedBlockRef := lastProcessedBlockRef h;
     lastWinIdRef := lastWinIdRef h; spinTimeoutRef := spinTimeoutRef h;
     winDisplayRef := winDisplayRef h; pollIntervalRef := pollIntervalRef h;
     pollCleanup := pollCleanup h; timers := timers h;
     nextHandle := nextHandle h; console := console h |}.

Definition setShowWinResult (v : bool) (h : Hook) : Hook :=
  {| activeSpin := activeSpin h; lastWin := lastWin h;
     isGlobalSpinning := isGlobalSpinning h; showWinResult := v;
     lastProcessedBlockRef := lastProcessedBlockRef h;
     lastWinIdRef := lastWinIdRef h; spinTimeoutRef := spinTimeoutRef h;
     winDisplayRef := winDisplayRef h; pollIntervalRef := pollIntervalRef h;
     pollCleanup := pollCleanup h; timers := timers h;
     nextHandle := nextHandle h; console := console h |}.

Definition setLastProcessedBlockRef (v : option Z) (h : Hook) : Hook :=
  {| activeSpin := activeSpin h; lastWin := lastWin h;
     isGlobalSpinning := isGlobalSpinning h;
     showWinResult := showWinResult h; lastProcessedBlockRef := v;
     lastWinIdRef := lastWinIdRef h; spinTimeoutRef := spinTimeoutRef h;
     winDisplayRef := winDisplayRef h; pollIntervalRef := pollIntervalRef h;
     pollCleanup := pollCleanup h; timers := timers h;
     nextHandle := nextHandle h; console := console h |}.

Definition setLastWinIdRef (v : option string) (h : Hook) : Hook :=
  {| activeSpin := activeSpin h; lastWin := lastWin h;
     isGlobalSpinning := isGlobalSpinning h;
     showWinResult := showWinResult h;
     lastProcessedBlockRef := lastProcessedBlockRef h; lastWinIdRef := v;
     spinTimeoutRef := spinTimeoutRef h; winDisplayRef := winDisplayRef h;
     pollIntervalRef := pollIntervalRef h; pollCleanup := pollCleanup h;
     timers := timers h; nextHandle := nextHandle h; console := console h |}.

Definition setSpinTimeoutRef (v : option Handle) (h : Hook) : Hook :=
  {| activeSpin := activeSpin h; lastWin := lastWin h;
     isGlobalSpinning := isGlobalSpinning h;
     showWinResult := showWinResult h;
     lastProcessedBlockRef := lastProcessedBlockRef h;
     lastWinIdRef := lastWinIdRef h; spinTimeoutRef := v;
     winDisplayRef := winDisplayRef h; pollIntervalRef := pollIntervalRef h;
     pollCleanup := pollCleanup h; timers := timers h;
     nextHandle := nextHandle h; console := console h |}.

Definition setWinDisplayRef (v : option Handle) (h : Hook) : Hook :=
  {| activeSpin := activeSpin h; lastWin := lastWin h;
     isGlobalSpinning := isGlobalSpinning h;
     showWinResult := showWinResult h;
     lastProcessedBlockRef := lastProcessedBlockRef h;
     lastWinIdRef := lastWinIdRef h; spinTimeoutRef := spinTimeoutRef h;
     winDisplayRef := v; pollIntervalRef := pollIntervalRef h;
     pollCleanup := pollCleanup h; timers := timers h;
     nextHandle := nextHandle h; console := console h |}.

Definition setPollIntervalRef (v : option Handle) (h : Hook) : Hook :=
  {| activeSpin := activeSpin h; lastWin := lastWin h;
     isGlobalSpinning := isGlobalSpinning h;
     showWinResult := showWinResult h;
     lastProcessedBlockRef := lastProcessedBlockRef h;
     lastWinIdRef := lastWinIdRef h; spinTimeoutRef := spinTimeoutRef h;
     winDisplayRef := winDisplayRef h; pollIntervalRef := v;
     pollCleanup := pollCleanup h; timers := timers h;
     nextHandle := nextHandle h; console := console h |}.

Definition setPollCleanup (v : bool) (h : Hook) : Hook :=
  {| activeSpin := activeSpin h; lastWin := lastWin h;
     isGlobalSpinning := isGlobalSpinning h;
     showWinResult := showWinResult h;
     lastProcessedBlockRef := lastProcessedBlockRef h;
     lastWinIdRef := lastWinIdRef h; spinTimeoutRef := spinTimeoutRef h;
     winDisplayRef := winDisplayRef h; pollIntervalRef := pollIntervalRef h;
     pollCleanup := v; timers := timers h; nextHandle := nextHandle h;
     console := console h |}.

Definition setTimers (v : list Timer) (h : Hook) : Hook :=
  {| activeSpin := activeSpin h; lastWin := lastWin h;
     isGlobalSpinning := isGlobalSpinning h;
     showWinResult := showWinResult h;
     lastProcessedBlockRef := lastProcessedBlockRef h;
     lastWinIdRef := lastWinIdRef h; spinTimeoutRef := spinTimeoutRef h;
     winDisplayRef := winDisplayRef h; pollIntervalRef := pollIntervalRef h;
     pollCleanup := pollCleanup h; timers := v; nextHandle := nextHandle h;
     console := console h |}.

Definition setNextHandle (v : Handle) (h : Hook) : Hook :=
  {| activeSpin := activeSpin h; lastWin := lastWin h;
     isGlobalSpinning := isGlobalSpinning h;
     showWinResult := showWinResult h;
     lastProcessedBlockRef := lastProcessedBlockRef h;
     lastWinIdRef := lastWinIdRef h; spinTimeoutRef := spinTimeoutRef h;
     winDisplayRef := winDisplayRef h; pollIntervalRef := pollIntervalRef h;
     pollCleanup := pollCleanup h; timers := timers h; nextHandle := v;
     console := console h |}.

Definition consoleError (msg : string) (h : Hook) : Hook :=
  {| activeSpin := activeSpin h; lastWin := lastWin h;
     isGlobalSpinning := isGlobalSpinning h;
     showWinResult := showWinResult h;
     lastProcessedBlockRef := lastProcessedBlockRef h;
     lastWinIdRef := lastWinIdRef h; spinTimeoutRef := spinTimeoutRef h;
     winDisplayRef := winDisplayRef h; pollIntervalRef := pollIntervalRef h;
     pollCleanup := pollCleanup h; timers := timers h;
     nextHandle := nextHandle h; console := console h ++ [msg] |}.

(** *** Timers *)

Definition isHandle (id : Handle) (t : Timer) : bool := Pos.eqb (t_handle t) id.

Definition arm (cb : Callback) (every : option Z) (delay now : Z) (h : Hook)
    : Handle * Hook :=
  let id := nextHandle h in
  let t := {| t_handle := id; t_due := now + delay; t_every := every;
              t_callback := cb |} in
  (id, setNextHandle (Pos.succ id) (setTimers (timers h ++ [t]) h)).

(** [clearTimeout] and [clearInterval] alike. *)
Definition clearTimer (id : Handle) (h : Hook) : Hook :=
  setTimers (filter (fun t => negb (isHandle id t)) (timers h)) h.

(** [if (ref.current) clear...(ref.current)] *)
Definition clearIfSet (ref : option Handle) (h : Hook) : Hook :=
  match ref with
  | Some id => clearTimer id h
  | None => h
  end.

Definition armed (id : Handle) (h : Hook) : option Timer :=
  find (isHandle id) (timers h).

Section Processing.
Context `{GlobalSpin.Formatting}.

(** *** [processWinEvent] *)

(** The synchronous part, for a win that is not the one recorded in
    [lastWinIdRef]. *)
Definition processWinBegin (now : Z) (log : GlobalSpin.WinLog) (isNew : bool)
    (h : Hook) : Hook :=
  let h1 := setLastWinIdRef (Some (GlobalSpin.winIdOf log)) h in
  let h2 := clearIfSet (spinTimeoutRef h1) h1 in
  let h3 := setIsGlobalSpinning false (setActiveSpin None h2) in
  let h4 := setLastWin (Some (GlobalSpin.newWinOf now log)) h3 in
  if isNew then
    let h5 := setShowWinResult true h4 in
    let h6 := clearIfSet (winDisplayRef h5) h5 in
    let (t, h7) := arm HideWin None 10000 now h6 in
    setWinDisplayRef (Some t) h7
  else h4.

(** After [await fetchUserByAddress]. *)
Definition processWinResume (log : GlobalSpin.WinLog)
    (user : option GlobalSpin.UserInfo) (h : Hook) : Hook :=
  match user with
  | Some u =>
      setLastWin
        (GlobalSpin.patchWinUser (GlobalSpin.winIdOf log) u (lastWin h)) h
  | None => h
  end.

(** The whole call, uninterrupted.  A win whose id is the recorded one is
    skipped before anything else happens. *)
Definition processWinEvent (d : GlobalSpin.Delivery GlobalSpin.WinLog)
    (isNew : bool) (h : Hook) : Hook :=
  let winId := GlobalSpin.winIdOf (GlobalSpin.d_log d) in
  match lastWinIdRef h with
  | Some recorded =>
      if String.eqb recorded winId then h
      else processWinResume (GlobalSpin.d_log d) (GlobalSpin.d_user d)
             (processWinBegin (GlobalSpin.d_start d) (GlobalSpin.d_log d) isNew h)
  | None =>
      processWinResume (GlobalSpin.d_log d) (GlobalSpin.d_user d)
        (processWinBegin (GlobalSpin.d_start d) (GlobalSpin.d_log d) isNew h)
  end.

(** *** [processSpinEvent] *)

Definition processSpinBegin (now : Z) (log : GlobalSpin.SpinLog) (h : Hook)
    : Hook :=
  setShowWinResult false
    (setIsGlobalSpinning true
       (setActiveSpin (Some (GlobalSpin.newSpinOf now log)) h)).

Definition processSpinResume (now : Z) (log : GlobalSpin.SpinLog)
    (user : option GlobalSpin.UserInfo) (h : Hook) : Hook :=
  let id := GlobalSpin.spinIdOf log in
  let h1 := match user with
            | Some u =>
                setActiveSpin (GlobalSpin.patchSpinUser id u (activeSpin h)) h
            | None => h
            end in
  let h2 := clearIfSet (spinTimeoutRef h1) h1 in
  let (t, h3) := arm (ExpireSpin id) None GlobalSpin.SPIN_TIMEOUT_MS now h2 in
  setSpinTimeoutRef (Some t) h3.

Definition processSpinEvent (d : GlobalSpin.Delivery GlobalSpin.SpinLog)
    (h : Hook) : Hook :=
  processSpinResume (GlobalSpin.d_resumed d) (GlobalSpin.d_log d)
    (GlobalSpin.d_user d)
    (processSpinBegin (GlobalSpin.d_start d) (GlobalSpin.d_log d) h).

(** *** [pollForEvents] *)

(** What the outside answers during one poll: the head block, and for each
    range the logs of each kind, every log together with the clock readings
    and the lookup answer met while it is processed. *)
Record Answers := {
  head : Fetch Z;
  wins : Z -> Z -> Fetch (list (GlobalSpin.Delivery GlobalSpin.WinLog));
  spins : Z -> Z -> Fetch (list (GlobalSpin.Delivery GlobalSpin.SpinLog))
}.

Definition pollFailed (err : string) (h : Hook) : Hook :=
  consoleError ("Failed to poll for events: " ++ err)%string h.

(** [for (const log of spinLogs) await processSpinEvent(...)] *)
Definition processSpins (ds : list (GlobalSpin.Delivery GlobalSpin.SpinLog))
    (h : Hook) : Hook :=
  fold_left (fun acc d => processSpinEvent d acc) ds h.

(** [for (const log of winLogs) await processWinEvent(..., true)] *)
Definition processWins (ds : list (GlobalSpin.Delivery GlobalSpin.WinLog))
    (h : Hook) : Hook :=
  fold_left (fun acc d => processWinEvent d true acc) ds h.

(** [winLogs.length > 0 ? winLogs[winLogs.length - 1] : nothing] *)
Definition latestOf (logs : list (GlobalSpin.Delivery GlobalSpin.WinLog))
    : option (GlobalSpin.Delivery GlobalSpin.WinLog) :=
  nth_error logs (List.length logs - 1)%nat.

Definition pollForEvents (a : Answers) (h : Hook) : Hook :=
  match head a with
  | Rejected err => pollFailed err h
  | Resolved currentBlock =>
      match lastProcessedBlockRef h with
      | None =>
          (* first run: seed the last win from the lookback window *)
          let fromBlock := currentBlock - 3600 in
          match wins a (if 0 <? fromBlock then fromBlock else 0) currentBlock with
          | Rejected err => pollFailed err h
          | Resolved winLogs =>
              let h1 := match latestOf winLogs with
                        | Some latestLog => processWinEvent latestLog false h
                        | None => h
                        end in
              setLastProcessedBlockRef (Some currentBlock) h1
          end
      | Some lastProcessed =>
          let fromBlock := lastProcessed + 1 in
          if currentBlock <? fromBlock then h
          else
            match spins a fromBlock currentBlock with
            | Rejected err => pollFailed err h
            | Resolved spinLogs =>
                let h1 := processSpins spinLogs h in
                match wins a fromBlock currentBlock with
                | Rejected err => pollFailed err h1
                | Resolved winLogs =>
                    setLastProcessedBlockRef (Some currentBlock)
                      (processWins winLogs h1)
                end
            end
      end
  end.

(** *** The polling effect and the cleanups *)

(** The cleanup the polling effect returned, if it returned one. *)
Definition pollingCleanup (h : Hook) : Hook :=
  if pollCleanup h
  then setPollCleanup false (clearIfSet (pollIntervalRef h) h)
  else h.

(** The polling effect runs (again) because [publicClient] is now
    [client]: the previous cleanup, then the effect.  The first poll starts
    before the interval is armed, but its first statement awaits the head
    block, so everything it does comes after. *)
Definition pollingEffect (now : Z) (client : option Answers) (h : Hook) : Hook :=
  let h0 := pollingCleanup h in
  match client with
  | None => h0
  | Some a =>
      let (i, h1) := arm PollForEvents (Some POLL_INTERVAL_MS)
                       POLL_INTERVAL_MS now h0 in
      pollForEvents a (setPollCleanup true (setPollIntervalRef (Some i) h1))
  end.

(** Unmount: the polling effect's cleanup, then the cleanup of the last
    effect. *)
Definition unmount (h : Hook) : Hook :=
  let h0 := pollingCleanup h in
  let h1 := clearIfSet (spinTimeoutRef h0) h0 in
  let h2 := clearIfSet (winDisplayRef h1) h1 in
  clearIfSet (pollIntervalRef h2) h2.

Definition reschedule (id : Handle) (due : Z) (h : Hook) : Hook :=
  setTimers
    (map (fun t => if isHandle id t
                   then {| t_handle := t_handle t; t_due := due;
                           t_every := t_every t; t_callback := t_callback t |}
                   else t)
         (timers h)) h.

(** The closures given to [setTimeout] and [setInterval]; a poll gets the
    outside's answers. *)
Definition runCallback (cb : Callback) (a : Answers) (h : Hook) : Hook :=
  match cb with
  | ExpireSpin id =>
      let cleared :=
        match activeSpin h with
        | Some prev =>
            if String.eqb (GlobalSpin.spin_id prev) id then None else Some prev
        | None => None
        end in
      setIsGlobalSpinning false (setActiveSpin cleared h)
  | HideWin => setShowWinResult false h
  | PollForEvents => pollForEvents a h
  end.

(** The runtime considers timer [id] when the clock reads [now]. *)
Definition fireTimer (now : Z) (a : Answers) (id : Handle) (h : Hook) : Hook :=
  match armed id h with
  | Some t =>
      if t_due t <=? now then
        match t_every t with
        | None => runCallback (t_callback t) a (clearTimer id h)
        | Some period =>
            runCallback (t_callback t) a (reschedule id (t_due t + period) h)
        end
      else h
  | None => h
  end.

(** Everything that can happen to the hook. *)
Inductive Event :=
| ClientChanged (now : Z) (client : option Answers)
| Fired (now : Z) (a : Answers) (id : Handle).

Definition step (e : Event) (h : Hook) : Hook :=
  match e with
  | ClientChanged now client => pollingEffect now client h
  | Fired now a id => fireTimer now a id h
  end.

Definition run (es : list Event) (h : Hook) : Hook :=
  fold_left (fun acc e => step e acc) es h.

End Processing.


(** Which ref holds the handle of a timer of this kind. *)
Definition refFor (cb : Callback) (h : Hook) : option Handle :=
  match cb with
  | ExpireSpin _ => spinTimeoutRef h
  | HideWin => winDisplayRef h
  | PollForEvents => pollIntervalRef h
  end.

Definition timerOk (h : Hook) (t : Timer) : Prop :=
  (t_handle t < nextHandle h)%positive /\
  refFor (t_callback t) h = Some (t_handle t).

Definition consistent (h : Hook) : Prop := Forall (timerOk h) (timers h).


(** The timers still in the table once the one behind [ref] is cleared. *)
Definition survivors (ref : option Handle) (l : list Timer) : list Timer :=
  match ref with
  | Some id => filter (fun t => negb (isHandle id t)) l
  | None => l
  end.

Definition winIdOfDelivery (d : GlobalSpin.Delivery GlobalSpin.WinLog)
    : option string :=
  Some (GlobalSpin.winIdOf (GlobalSpin.d_log d)).

(** The win a delivery turns into. *)
Definition winOf `{GlobalSpin.Formatting}
    (d : GlobalSpin.Delivery GlobalSpin.WinLog) : GlobalSpin.GlobalWinState :=
  GlobalSpin.winWithUser (GlobalSpin.d_user d)
    (GlobalSpin.newWinOf (GlobalSpin.d_start d) (GlobalSpin.d_log d)).

(** *** Concrete data used to run the model *)

(** A node at head block [head] that has the given logs in every range. *)
Definition nodeAt (head : Z)
    (spinLogs : list (GlobalSpin.Delivery GlobalSpin.SpinLog))
    (winLogs : list (GlobalSpin.Delivery GlobalSpin.WinLog)) : Answers :=
  {| head := Resolved head;
     wins := fun _ _ => Resolved winLogs;
     spins := fun _ _ => Resolved spinLogs |}.

Definition unreachable : Answers :=
  {| head := Rejected "network error";
     wins := fun _ _ => Rejected "network error";
     spins := fun _ _ => Rejected "network error" |}.

(** A node that answers the head block and the spin logs but not the win
    logs. *)
Definition flaky (head : Z)
    (spinLogs : list (GlobalSpin.Delivery GlobalSpin.SpinLog)) : Answers :=
  {| head := Resolved head;
     wins := fun _ _ => Rejected "rate limited";
     spins := fun _ _ => Resolved spinLogs |}.

Definition bobWinLog : GlobalSpin.WinLog :=
  {| GlobalSpin.wl_spinner := GlobalSpin.bob; GlobalSpin.wl_epochId := 42;
     GlobalSpin.wl_oddsPercent := 200; GlobalSpin.wl_amount := 180;
     GlobalSpin.wl_transactionHash := "0xd00d";
     GlobalSpin.wl_blockNumber := 1003 |}.

(** The hook after its first poll found the jackpot at head block 1000. *)
Definition seeded : Hook :=
  @pollForEvents GlobalSpin.rawFormatting
    (nodeAt 1000 [] [GlobalSpin.delivered GlobalSpin.jackpotLog 5]) initial.

End Poller.

(** * Properties of the global activity hook *)

Module GlobalSpinFacts.
Import GlobalSpin.

#[local] Arguments String.eqb : simpl never.
#[local] Arguments spinIdOf : simpl never.
#[local] Arguments winIdOf : simpl never.

(** ** The timer table *)

Lemma find_after_filter (id id' : Handle) (l : list Timer) :
  find (isHandle id) (filter (fun t => negb (isHandle id' t)) l) =
  if Pos.eqb id id' then None else find (isHandle id) l.
Proof.
  induction l as [|t l IH]; simpl.
  - now destruct (Pos.eqb id id').
  - destruct (isHandle id' t) eqn:E1; simpl.
    + rewrite IH. destruct (Pos.eqb_spec id id') as [E|E]; [reflexivity|].
      destruct (isHandle id t) eqn:E2; [|reflexivity].
      unfold isHandle in E1, E2. apply Pos.eqb_eq in E1, E2. congruence.
    + rewrite IH. destruct (isHandle id t) eqn:E2; [|reflexivity].
      destruct (Pos.eqb_spec id id') as [E|E]; [|reflexivity].
      subst. congruence.
Qed.


Lemma find_unknown_handle (n : Handle) (l : list Timer) :
  Forall (fun t => (t_handle t < n)%positive) l ->
  find (isHandle n) l = None.
Proof.
  induction 1 as [|t l Ht _ IH]; simpl; [reflexivity|].
  unfold isHandle at 1.
  destruct (Pos.eqb_spec (t_handle t) n); [lia | exact IH].
Qed.

Lemma find_appended (n : Handle) (l : list Timer) (t : Timer) :
  Forall (fun t' => (t_handle t' < n)%positive) l ->
  t_handle t = n ->
  find (isHandle n) (l ++ [t]) = Some t.
Proof.
  intros Hl Ht. induction Hl as [|t' l Ht' _ IH]; simpl.
  - unfold isHandle. now rewrite Ht, Pos.eqb_refl.
  - unfold isHandle at 1.
    destruct (Pos.eqb_spec (t_handle t') n); [lia | exact IH].
Qed.

Lemma Forall_filter_keep {A} (P : A -> Prop) (f : A -> bool) (l : list A) :
  Forall P l -> Forall P (filter f l).
Proof.
  induction 1 as [|a l Ha _ IH]; simpl; [constructor|].
  destruct (f a); [constructor|]; assumption.
Qed.

Lemma fresh_of_consistent (h : Hook) :
  consistent h -> Forall (fun t => (t_handle t < nextHandle h)%positive) (timers h).
Proof. unfold consistent. apply Forall_impl. now intros t [Hlt _]. Qed.

Lemma timers_clearIfSet (ref : option Handle) (h : Hook) :
  timers (clearIfSet ref h) = survivors ref (timers h).
Proof. now destruct ref. Qed.

Lemma survivors_fresh (ref : option Handle) (n : Handle) (l : list Timer) :
  Forall (fun t => (t_handle t < n)%positive) l ->
  Forall (fun t => (t_handle t < n)%positive) (survivors ref l).
Proof. destruct ref; simpl; [apply Forall_filter_keep | trivial]. Qed.

Lemma survivors_In (ref : option Handle) (l : list Timer) (t : Timer) :
  In t (survivors ref l) -> In t l /\ ref <> Some (t_handle t).
Proof.
  destruct ref as [id|]; simpl.
  - rewrite filter_In. intros [Hin Hne]. split; [assumption|].
    intros E. injection E as ->. unfold isHandle in Hne.
    now rewrite Pos.eqb_refl in Hne.
  - intros Hin. split; [assumption | discriminate].
Qed.

Section Facts.
Context `{Formatting}.

(** ** Closed forms of the two handlers *)

Lemma applySpin_unfold (d : Delivery SpinLog) (h : Hook) :
  applySpin d h =
  {| activeSpin := Some (spinWithUser (d_user d) (newSpinOf (d_start d) (d_log d)));
     lastWin := lastWin h;
     isGlobalSpinning := true;
     showWinResult := false;
     spinTimeoutRef := Some (nextHandle h);
     winDisplayRef := winDisplayRef h;
     hasFetchedInitial := hasFetchedInitial h;
     timers := survivors (spinTimeoutRef h) (timers h) ++
               [ {| t_handle := nextHandle h;
                    t_due := d_resumed d + SPIN_TIMEOUT_MS;
                    t_callback := ExpireSpin (spinIdOf (d_log d)) |} ];
     nextHandle := Pos.succ (nextHandle h);
     console := console h |}.
Proof.
  destruct h as [sp lw live shown sref wref fetched ts next out].
  destruct d as [log t0 [u|] t1]; destruct sref;
    cbn; rewrite ?String.eqb_refl; reflexivity.
Qed.

Lemma applyWin_unfold (d : Delivery WinLog) (h : Hook) :
  applyWin d h =
  {| activeSpin := None;
     lastWin := Some (winWithUser (d_user d) (newWinOf (d_start d) (d_log d)));
     isGlobalSpinning := false;
     showWinResult := true;
     spinTimeoutRef := spinTimeoutRef h;
     winDisplayRef := Some (nextHandle h);
     hasFetchedInitial := hasFetchedInitial h;
     timers := survivors (winDisplayRef h)
                 (survivors (spinTimeoutRef h) (timers h)) ++
               [ {| t_handle := nextHandle h;
                    t_due := d_resumed d + 10000;
                    t_callback := HideWin |} ];
     nextHandle := Pos.succ (nextHandle h);
     console := console h |}.
Proof.
  destruct h as [sp lw live shown sref wref fetched ts next out].
  destruct d as [log t0 [u|] t1]; destruct sref; destruct wref;
    cbn; rewrite ?String.eqb_refl; reflexivity.
Qed.

(** ** The bookkeeping invariant holds in every reachable state *)

Lemma consistent_initial : consistent initial.
Proof. constructor. Qed.

Lemma consistent_same_table (h h' : Hook) :
  timers h' = timers h -> nextHandle h' = nextHandle h ->
  spinTimeoutRef h' = spinTimeoutRef h -> winDisplayRef h' = winDisplayRef h ->
  consistent h -> consistent h'.
Proof.
  unfold consistent, timerOk. intros -> E1 E2 E3.
  apply Forall_impl. intros t [Hlt Href]. rewrite E1. split; [assumption|].
  destruct (t_callback t); simpl in *; congruence.
Qed.

Lemma consistent_spinLogBegin now log h :
  consistent h -> consistent (spinLogBegin now log h).
Proof. now apply consistent_same_table. Qed.

Lemma consistent_spinLogResume now log user h :
  consistent h -> consistent (spinLogResume now log user h).
Proof.
  intros Hc. unfold consistent in *. rewrite Forall_forall in Hc.
  destruct h as [sp lw live shown sref wref fetched ts next out].
  assert (E : spinLogResume now log user
                {| activeSpin := sp; lastWin := lw; isGlobalSpinning := live;
                   showWinResult := shown; spinTimeoutRef := sref;
                   winDisplayRef := wref; hasFetchedInitial := fetched;
                   timers := ts; nextHandle := next; console := out |}
              = {| activeSpin := match user with
                                 | Some u => patchSpinUser (spinIdOf log) u sp
                                 | None => sp
                                 end;
                   lastWin := lw; isGlobalSpinning := live;
                   showWinResult := shown; spinTimeoutRef := Some next;
                   winDisplayRef := wref; hasFetchedInitial := fetched;
                   timers := survivors sref ts ++
                             [ {| t_handle := next;
                                  t_due := now + SPIN_TIMEOUT_MS;
                                  t_callback := ExpireSpin (spinIdOf log) |} ];
                   nextHandle := Pos.succ next; console := out |})
    by (destruct user; destruct sref; reflexivity).
  rewrite E. simpl in *. apply Forall_forall. intros t Hin.
  apply in_app_or in Hin. destruct Hin as [Hin | [<- | []]].
  - apply survivors_In in Hin. destruct Hin as [Hin Hne].
    destruct (Hc t Hin) as [Hlt Href]. unfold timerOk; simpl in *. split; [lia|].
    destruct (t_callback t); simpl in *; congruence.
  - unfold timerOk; simpl. split; [lia | reflexivity].
Qed.

Lemma consistent_winLogBegin now log h :
  consistent h -> consistent (winLogBegin now log h).
Proof.
  intros Hc. unfold consistent in *. rewrite Forall_forall in Hc.
  apply Forall_forall. intros t Hin.
  destruct h as [sp lw live shown sref wref fetched ts next out].
  unfold winLogBegin in Hin |- *. simpl in Hin |- *.
  assert (Hin' : In t (survivors sref ts)) by (destruct sref; exact Hin).
  apply survivors_In in Hin'. destruct Hin' as [Hin' Hne].
  destruct (Hc t Hin') as [Hlt Href]. unfold timerOk in *; simpl in *.
  destruct sref; simpl; (split; [assumption|]);
    destruct (t_callback t); simpl in *; congruence.
Qed.

Lemma consistent_winLogResume now log user h :
  consistent h -> consistent (winLogResume now log user h).
Proof.
  intros Hc. unfold consistent in *. rewrite Forall_forall in Hc.
  destruct h as [sp lw live shown sref wref fetched ts next out].
  assert (E : winLogResume now log user
                {| activeSpin := sp; lastWin := lw; isGlobalSpinning := live;
                   showWinResult := shown; spinTimeoutRef := sref;
                   winDisplayRef := wref; hasFetchedInitial := fetched;
                   timers := ts; nextHandle := next; console := out |}
              = {| activeSpin := sp;
                   lastWin := match user with
                              | Some u => patchWinUser (winIdOf log) u lw
                              | None => lw
                              end;
                   isGlobalSpinning := live;
                   showWinResult := shown; spinTimeoutRef := sref;
                   winDisplayRef := Some next; hasFetchedInitial := fetched;
                   timers := survivors wref ts ++
                             [ {| t_handle := next; t_due := now + 10000;
                                  t_callback := HideWin |} ];
                   nextHandle := Pos.succ next; console := out |})
    by (destruct user; destruct wref; reflexivity).
  rewrite E. simpl in *. apply Forall_forall. intros t Hin.
  apply in_app_or in Hin. destruct Hin as [Hin | [<- | []]].
  - apply survivors_In in Hin. destruct Hin as [Hin Hne].
    destruct (Hc t Hin) as [Hlt Href]. unfold timerOk; simpl in *. split; [lia|].
    destruct (t_callback t); simpl in *; congruence.
  - unfold timerOk; simpl. split; [lia | reflexivity].
Qed.

Lemma consistent_applySpin d h : consistent h -> consistent (applySpin d h).
Proof.
  intros Hc. apply consistent_spinLogResume, consistent_spinLogBegin, Hc.
Qed.

Lemma consistent_applyWin d h : consistent h -> consistent (applyWin d h).
Proof.
  intros Hc. apply consistent_winLogResume, consistent_winLogBegin, Hc.
Qed.

Lemma consistent_fetchRecentWin now client user h :
  consistent h -> consistent (fetchRecentWin now client user h).
Proof.
  unfold fetchRecentWin.
  destruct (getBlockNumber client) as [cb|err];
    [destruct (getWinLogs client _ cb) as [logs|err];
     [destruct (latestOf logs); [destruct user|]|]|];
    now apply consistent_same_table.
Qed.

Lemma consistent_fireTimer now id h :
  consistent h -> consistent (fireTimer now id h).
Proof.
  intros Hc. unfold fireTimer.
  destruct (armed id h) as [t|]; [|assumption].
  destruct (t_due t <=? now); [|assumption].
  assert (Hc' : consistent (clearTimeout id h)).
  { unfold consistent, clearTimeout. simpl.
    apply Forall_filter_keep.
    revert Hc. unfold consistent. apply Forall_impl.
    intros t' [Hlt Href]. split; [assumption|].
    destruct (t_callback t'); assumption. }
  destruct (t_callback t); simpl; revert Hc'; now apply consistent_same_table.
Qed.

(** ** Firing a timer that sits at the end of the table *)

Lemma armed_newest (h : Hook) (rest : list Timer) (t : Timer) :
  timers h = rest ++ [t] ->
  Forall (fun t' => (t_handle t' < t_handle t)%positive) rest ->
  armed (t_handle t) h = Some t.
Proof.
  intros E Hrest. unfold armed. rewrite E. now apply find_appended.
Qed.


Lemma fireTimer_due (h : Hook) (t : Timer) (now : Z) :
  armed (t_handle t) h = Some t -> t_due t <= now ->
  fireTimer now (t_handle t) h =
  runCallback (t_callback t) (clearTimeout (t_handle t) h).
Proof.
  intros E Hnow. unfold fireTimer. rewrite E.
  destruct (Z.leb_spec (t_due t) now); [reflexivity | lia].
Qed.


(** ** What each handler arms *)

Lemma applySpin_arms (d : Delivery SpinLog) (h : Hook) :
  consistent h ->
  exists t,
    spinTimeoutRef (applySpin d h) = Some t /\
    armed t (applySpin d h) =
      Some {| t_handle := t; t_due := d_resumed d + 120000;
              t_callback := ExpireSpin (spinIdOf (d_log d)) |}.
Proof.
  intros Hc. exists (nextHandle h). rewrite applySpin_unfold. simpl.
  split; [reflexivity|].
  apply (armed_newest _ (survivors (spinTimeoutRef h) (timers h))
           {| t_handle := nextHandle h; t_due := d_resumed d + 120000;
              t_callback := ExpireSpin (spinIdOf (d_log d)) |}).
  - reflexivity.
  - apply survivors_fresh, fresh_of_consistent, Hc.
Qed.

Lemma applyWin_arms (d : Delivery WinLog) (h : Hook) :
  consistent h ->
  exists t,
    winDisplayRef (applyWin d h) = Some t /\
    armed t (applyWin d h) =
      Some {| t_handle := t; t_due := d_resumed d + 10000;
              t_callback := HideWin |}.
Proof.
  intros Hc. exists (nextHandle h). rewrite applyWin_unfold. simpl.
  split; [reflexivity|].
  apply (armed_newest _ (survivors (winDisplayRef h)
                           (survivors (spinTimeoutRef h) (timers h)))
           {| t_handle := nextHandle h; t_due := d_resumed d + 10000;
              t_callback := HideWin |}).
  - reflexivity.
  - apply survivors_fresh, survivors_fresh, fresh_of_consistent, Hc.
Qed.

(** ** Applying a Spin *)



(** ** Applying a Win *)

Lemma no_timer_survives_both (h : Hook) (t : Timer) :
  consistent h ->
  ~ In t (survivors (winDisplayRef h) (survivors (spinTimeoutRef h) (timers h))).
Proof.
  intros Hc Hin. unfold consistent in Hc. rewrite Forall_forall in Hc.
  apply survivors_In in Hin. destruct Hin as [Hin Hw].
  apply survivors_In in Hin. destruct Hin as [Hin Hs].
  destruct (Hc t Hin) as [_ Href].
  destruct (t_callback t); simpl in Href; congruence.
Qed.

(** The mount-time fetch touches [lastWin] and the console only. *)
Lemma fetchRecentWin_frame now client user (h : Hook) :
  let b := fetchRecentWin now client user h in
  activeSpin b = activeSpin h /\ isGlobalSpinning b = isGlobalSpinning h /\
  showWinResult b = showWinResult h /\ timers b = timers h /\
  spinTimeoutRef b = spinTimeoutRef h /\ winDisplayRef b = winDisplayRef h /\
  hasFetchedInitial b = hasFetchedInitial h.
Proof.
  unfold fetchRecentWin.
  destruct (getBlockNumber client) as [cb|err];
    [destruct (getWinLogs client _ cb) as [logs|err];
     [destruct (latestOf logs); [destruct user|]|]|];
    simpl; repeat split; reflexivity.
Qed.


(** ** Delivering the same occurrence again *)

Lemma find_in_app (f : Timer -> bool) (l1 l2 : list Timer) :
  find f (l1 ++ l2) =
  match find f l1 with Some t => Some t | None => find f l2 end.
Proof.
  induction l1 as [|t l1 IH]; simpl; [reflexivity|].
  destruct (f t); [reflexivity | exact IH].
Qed.

Lemma superseded_timer_gone (id : Handle) (l : list Timer) (t : Timer) :
  t_handle t <> id ->
  find (isHandle id) (survivors (Some id) l ++ [t]) = None.
Proof.
  intros Hne. rewrite find_in_app. simpl survivors.
  rewrite find_after_filter, Pos.eqb_refl. simpl. unfold isHandle.
  destruct (Pos.eqb_spec (t_handle t) id); [contradiction | reflexivity].
Qed.

(** C1 (as the code has it): the hook keeps no record of the ids it has
    applied, so a second delivery of the same Spin or Win runs the handler in
    full.  Delivered again at the same clock reading and with the same lookup
    answer, it leaves the four cells (active spin, last win, live flag, win
    highlight) as the first delivery left them, but it is not ignored: it
    cancels the timer the first delivery armed and arms a new one. *)
Theorem redelivery_keeps_cells_but_rearms
    (ds : Delivery SpinLog) (dw : Delivery WinLog) (h : Hook) :
  consistent h ->
  let s1 := applySpin ds h in
  let s2 := applySpin ds s1 in
  let w1 := applyWin dw h in
  let w2 := applyWin dw w1 in
  cells s2 = cells s1 /\
  cells w2 = cells w1 /\
  (exists t1 t2,
     spinTimeoutRef s1 = Some t1 /\ spinTimeoutRef s2 = Some t2 /\ t1 <> t2 /\
     armed t1 s2 = None /\
     armed t2 s2 = Some {| t_handle := t2; t_due := d_resumed ds + 120000;
                           t_callback := ExpireSpin (spinIdOf (d_log ds)) |}) /\
  (exists t1 t2,
     winDisplayRef w1 = Some t1 /\ winDisplayRef w2 = Some t2 /\ t1 <> t2 /\
     armed t1 w2 = None /\
     armed t2 w2 = Some {| t_handle := t2; t_due := d_resumed dw + 10000;
                           t_callback := HideWin |}).
Proof.
  intros Hc s1 s2 w1 w2.
  pose proof (consistent_applySpin ds h Hc) as Hs1.
  pose proof (consistent_applyWin dw h Hc) as Hw1.
  fold s1 in Hs1. fold w1 in Hw1.
  assert (Es : spinTimeoutRef s1 = Some (nextHandle h))
    by (subst s1; now rewrite applySpin_unfold).
  assert (Ens : nextHandle s1 = Pos.succ (nextHandle h))
    by (subst s1; now rewrite applySpin_unfold).
  assert (Ew : winDisplayRef w1 = Some (nextHandle h))
    by (subst w1; now rewrite applyWin_unfold).
  assert (Enw : nextHandle w1 = Pos.succ (nextHandle h))
    by (subst w1; now rewrite applyWin_unfold).
  split; [|split; [|split]].
  - subst s2 s1. now rewrite !applySpin_unfold.
  - subst w2 w1. now rewrite !applyWin_unfold.
  - clearbody s1. exists (nextHandle h), (nextHandle s1).
    split; [exact Es|].
    split; [subst s2; now rewrite applySpin_unfold|].
    split; [rewrite Ens; lia|].
    split.
    + subst s2. rewrite applySpin_unfold. unfold armed. cbn [timers].
      rewrite Es. apply superseded_timer_gone. cbn [t_handle]. rewrite Ens. lia.
    + destruct (applySpin_arms ds s1 Hs1) as (t & Ht & Harmed).
      subst s2. rewrite applySpin_unfold in Ht. cbn [spinTimeoutRef] in Ht.
      injection Ht as <-. exact Harmed.
  - clearbody w1. exists (nextHandle h), (nextHandle w1).
    split; [exact Ew|].
    split; [subst w2; now rewrite applyWin_unfold|].
    split; [rewrite Enw; lia|].
    split.
    + subst w2. rewrite applyWin_unfold. unfold armed. cbn [timers].
      rewrite Ew. apply superseded_timer_gone. cbn [t_handle]. rewrite Enw. lia.
    + destruct (applyWin_arms dw w1 Hw1) as (t & Ht & Harmed).
      subst w2. rewrite applyWin_unfold in Ht. cbn [winDisplayRef] in Ht.
      injection Ht as <-. exact Harmed.
Qed.

(** ** The mount-time backfill *)

Lemma lookback_start (head : Z) :
  (if 0 <? head - 1800 then head - 1800 else 0) = Z.max 0 (head - 1800).
Proof. destruct (Z.ltb_spec 0 (head - 1800)); lia. Qed.


Lemma fetchRecentWin_rejected now client user (h : Hook) err :
  getBlockNumber client = Rejected err \/
  (exists head, getBlockNumber client = Resolved head /\
                getWinLogs client (Z.max 0 (head - 1800)) head = Rejected err) ->
  fetchRecentWin now client user h = fetchFailed err h.
Proof.
  unfold fetchRecentWin. intros [Eb | (head & Eb & El)]; rewrite Eb.
  - reflexivity.
  - now rewrite lookback_start, El.
Qed.

Lemma mountEffect_once now publicClient user (h : Hook) :
  hasFetchedInitial h = true ->
  runMountEffect now publicClient user h = h.
Proof.
  intros E. unfold runMountEffect, mountEffect.
  destruct publicClient; [rewrite E|]; reflexivity.
Qed.


(** C3 (as the code has it): when the mount-time fetch fails, the failure is
    logged and no cell or timer changes; but the first-fetch marker was set
    before the fetch started, so every later run of the effect returns at
    once and the fetch is never retried. *)
Theorem failed_backfill_is_logged_and_final
    now client user (h : Hook) (err : string) :
  hasFetchedInitial h = false ->
  (getBlockNumber client = Rejected err \/
   exists head, getBlockNumber client = Resolved head /\
                getWinLogs client (Z.max 0 (head - 1800)) head = Rejected err) ->
  let h' := runMountEffect now (Some client) user h in
  cells h' = cells h /\
  timers h' = timers h /\
  console h' = console h ++ [("Failed to fetch recent win: " ++ err)%string] /\
  hasFetchedInitial h' = true /\
  forall now' publicClient' user',
    runMountEffect now' publicClient' user' h' = h'.
Proof.
  intros Hfirst Hfail h'.
  assert (E : h' = fetchFailed err (setHasFetchedInitial true h)).
  { subst h'. unfold runMountEffect, mountEffect. rewrite Hfirst.
    now apply fetchRecentWin_rejected. }
  rewrite E. repeat split.
  intros now' publicClient' user'. now apply mountEffect_once.
Qed.

End Facts.

(** ** The model run on concrete deliveries *)

(** C1 as stated does not hold: a Win is delivered, its highlight fades
    after ten seconds, and the same Win is delivered again; the second
    delivery turns the highlight back on, re-stamps the win and arms a new
    display timer. *)
Lemma duplicate_win_is_applied_again :
  let once := @applyWin rawFormatting (delivered jackpotLog 0) initial in
  let faded := fireTimer 10000 1%positive once in
  let again := @applyWin rawFormatting (delivered jackpotLog 20000) faded in
  showWinResult faded = false /\ timers faded = [] /\
  showWinResult again = true /\
  timers again = [ {| t_handle := 2%positive; t_due := 30000;
                      t_callback := HideWin |} ] /\
  lastWin again <> lastWin faded /\
  again <> faded.
Proof.
  vm_compute. repeat split; try discriminate.
Qed.


(** C3 as stated does not hold: after a failed first fetch the marker is
    already set, and the next run of the effect against a healthy node does
    nothing, so the historical win is never seeded. *)
Lemma failed_backfill_is_not_retried :
  let failed := @runMountEffect rawFormatting 5 (Some offline) None initial in
  let later := @runMountEffect rawFormatting 3005
                 (Some (chainAt 1000 [jackpotLog])) None failed in
  hasFetchedInitial initial = false /\
  hasFetchedInitial failed = true /\
  later = failed /\
  lastWin later = None.
Proof. vm_compute. repeat split. Qed.


(** Instances of the theorems above on the initial state. *)



Lemma redelivery_keeps_cells_but_rearms_witness :
  consistent initial /\
  cells (@applyWin rawFormatting (delivered jackpotLog 100)
           (@applyWin rawFormatting (delivered jackpotLog 100) initial)) =
  cells (@applyWin rawFormatting (delivered jackpotLog 100) initial).
Proof.
  split; [constructor|].
  exact (proj1 (proj2 (@redelivery_keeps_cells_but_rearms rawFormatting
                         (delivered bobSpinLog 100) (delivered jackpotLog 100)
                         initial (Forall_nil _)))).
Defined.


Lemma failed_backfill_is_logged_and_final_witness :
  hasFetchedInitial initial = false /\
  getBlockNumber offline = Rejected "network error" /\
  hasFetchedInitial
    (@runMountEffect rawFormatting 5 (Some offline) None initial) = true.
Proof.
  split; [reflexivity|]. split; [reflexivity|].
  exact (proj1 (proj2 (proj2 (proj2
           (@failed_backfill_is_logged_and_final rawFormatting 5 offline None
              initial "network error" eq_refl (or_introl eq_refl)))))).
Defined.

End GlobalSpinFacts.

(** * Properties of the local spin lifecycle *)

Module PageFacts.
Import Page.

#[local] Arguments String.eqb : simpl never.

(** ** The timer table *)

Lemma find_after_clear (id id' : Handle) (l : list Timer) :
  find (isHandle id) (filter (fun t => negb (isHandle id' t)) l) =
  if Pos.eqb id id' then None else find (isHandle id) l.
Proof.
  induction l as [|t l IH]; simpl.
  - now destruct (Pos.eqb id id').
  - destruct (isHandle id' t) eqn:E1; simpl.
    + rewrite IH. destruct (Pos.eqb_spec id id') as [E|E]; [reflexivity|].
      destruct (isHandle id t) eqn:E2; [|reflexivity].
      unfold isHandle in E1, E2. apply Pos.eqb_eq in E1, E2. congruence.
    + rewrite IH. destruct (isHandle id t) eqn:E2; [|reflexivity].
      destruct (Pos.eqb_spec id id') as [E|E]; [|reflexivity].
      subst. congruence.
Qed.

Lemma armed_clearTimer (id id' : Handle) (s : State) :
  armed id (clearTimer id' s) = if Pos.eqb id id' then None else armed id s.
Proof. apply find_after_clear. Qed.

Lemma armed_clearTimer_same (id : Handle) (s : State) :
  armed id (clearTimer id s) = None.
Proof. rewrite armed_clearTimer. now rewrite Pos.eqb_refl. Qed.

Lemma armed_clearTimer_gone (id id' : Handle) (s : State) :
  armed id s = None -> armed id (clearTimer id' s) = None.
Proof. intros E. rewrite armed_clearTimer, E. now destruct (Pos.eqb id id'). Qed.

Lemma fireTimer_unarmed (now : Z) (id : Handle) (s : State) :
  armed id s = None -> fireTimer now id s = s.
Proof. intros E. unfold fireTimer. now rewrite E. Qed.

(** ** The resolved transition *)

Lemma handleWinDetected_resolves (s : State) (msg : string) :
  resolvedFrom s (handleWinDetected (emit (ConsoleLog msg) s)) msg.
Proof.
  unfold resolvedFrom, handleWinDetected.
  destruct s as [st ep vref bref pre ts next eff]. cbn.
  destruct vref as [v|]; destruct bref as [b|]; cbn;
    repeat split; try reflexivity; try discriminate;
    try (rewrite <- !app_assoc; reflexivity);
    intros id E; injection E as <-; unfold armed; cbn;
    rewrite ?find_after_clear, ?Pos.eqb_refl;
    try reflexivity; now destruct (Pos.eqb _ _).
Qed.

(** Both detectors look at the state first. *)
Lemma detectors_guarded (s : State) :
  localSpinState s <> waiting_vrf ->
  (forall r logs, onWinLogs r logs s = s) /\
  (forall r, balanceEffect r s = s).
Proof.
  intros Hst. split.
  - intros r logs. unfold onWinLogs, watcherEnabled.
    destruct (localSpinState s); try reflexivity. contradiction.
  - intros r. unfold balanceEffect.
    destruct (localSpinState s); try reflexivity. contradiction.
Qed.

Lemma scanWinLogs_match (r : Reads) (logs : list GlobalSpin.WinLog) (s : State) :
  localSpinState s = waiting_vrf ->
  existsb (fun log => sameAddress (GlobalSpin.wl_spinner log) (address r)) logs
    = true ->
  scanWinLogs r logs s =
  handleWinDetected
    (emit (ConsoleLog "Win detected via event for current user") s).
Proof.
  intros Hst. induction logs as [|log rest IH]; simpl; [discriminate|].
  rewrite Hst. simpl.
  destruct (sameAddress (GlobalSpin.wl_spinner log) (address r)); simpl.
  - reflexivity.
  - exact IH.
Qed.

Lemma scanWinLogs_others (r : Reads) (logs : list GlobalSpin.WinLog) (s : State) :
  forallb (fun log => negb (sameAddress (GlobalSpin.wl_spinner log) (address r)))
          logs = true ->
  scanWinLogs r logs s = s.
Proof.
  induction logs as [|log rest IH]; simpl; [reflexivity|].
  intros Hall. apply andb_prop in Hall. destruct Hall as [Hlog Hrest].
  apply negb_true_iff in Hlog. rewrite Hlog. simpl. now apply IH.
Qed.

(** C4: from [waiting_vrf], when both the push-match detector (a Win log of
    the user reaches the watcher) and the balance-delta detector (the
    refreshed balance exceeds the snapshot) are ready to fire, whichever runs
    first performs the resolved transition: state idle, hard timeout and
    balance poll cancelled and their refs cleared, snapshot cleared, one
    refetch and one write reset.  The other detector, run afterwards, changes
    nothing and arms nothing, in either order; so does the runtime looking at
    the cancelled hard timeout.  Both detectors return at once in any state
    other than [waiting_vrf]. *)
Theorem detector_race_resolves_once
    (rPush rBalance : Reads) (logs : list GlobalSpin.WinLog)
    (rig : RigState) (pre : Z) (s : State) :
  localSpinState s = waiting_vrf ->
  present (address rPush) = true ->
  existsb (fun log => sameAddress (GlobalSpin.wl_spinner log) (address rPush))
          logs = true ->
  rigState rBalance = Some rig ->
  preSpinBalanceRef s = Some pre ->
  pre < unitBalance rig ->
  let viaPush := onWinLogs rPush logs s in
  let viaBalance := balanceEffect rBalance s in
  resolvedFrom s viaPush "Win detected via event for current user" /\
  resolvedFrom s viaBalance "Win detected via balance change" /\
  balanceEffect rBalance viaPush = viaPush /\
  onWinLogs rPush logs viaBalance = viaBalance /\
  (forall now id, vrfTimeoutRef s = Some id ->
     fireTimer now id viaPush = viaPush /\
     fireTimer now id viaBalance = viaBalance) /\
  (forall s', localSpinState s' <> waiting_vrf ->
     (forall r logs', onWinLogs r logs' s' = s') /\
     (forall r, balanceEffect r s' = s')).
Proof.
  intros Hst Haddr Hmine Hrig Hpre Hgain viaPush viaBalance.
  assert (Epush : viaPush =
            handleWinDetected
              (emit (ConsoleLog "Win detected via event for current user") s)).
  { subst viaPush. unfold onWinLogs, watcherEnabled. rewrite Hst, Haddr. simpl.
    now apply scanWinLogs_match. }
  assert (Ebal : viaBalance =
            handleWinDetected
              (emit (ConsoleLog "Win detected via balance change") s)).
  { subst viaBalance. unfold balanceEffect. rewrite Hst, Hrig, Hpre.
    destruct (Z.ltb_spec pre (unitBalance rig)); [reflexivity | lia]. }
  pose proof (handleWinDetected_resolves s
                "Win detected via event for current user") as Rpush.
  pose proof (handleWinDetected_resolves s
                "Win detected via balance change") as Rbal.
  rewrite <- Epush in Rpush. rewrite <- Ebal in Rbal.
  clearbody viaPush viaBalance.
  assert (Ipush : localSpinState viaPush <> waiting_vrf)
    by (destruct Rpush as (E & _); rewrite E; discriminate).
  assert (Ibal : localSpinState viaBalance <> waiting_vrf)
    by (destruct Rbal as (E & _); rewrite E; discriminate).
  split; [exact Rpush|]. split; [exact Rbal|].
  split; [apply (detectors_guarded viaPush Ipush)|].
  split; [apply (detectors_guarded viaBalance Ibal)|].
  split; [|exact detectors_guarded].
  intros now id Hid.
  destruct Rpush as (_ & _ & _ & _ & _ & Hv & _).
  destruct Rbal as (_ & _ & _ & _ & _ & Hv' & _).
  split; apply fireTimer_unarmed; auto.
Qed.

(** ** The click handler *)

Lemma handleSpin_guard
    (now : Z) (r : Reads) (connect : Fetch (list string)) (write : Fetch unit)
    (s : State) :
  rigState r = None \/ localSpinState s <> idle ->
  handleSpin now r connect write s = s.
Proof.
  intros [Hrig | Hbusy]; unfold handleSpin.
  - now rewrite Hrig.
  - destruct (rigState r); [|reflexivity].
    destruct (localSpinState s); try reflexivity. contradiction.
Qed.


(** The [try] block, run. *)
Lemma trySpin_run now r rig connect write (s : State) :
  trySpin now r rig connect write s =
  match resolveTarget r connect s with
  | (Resolved target, s0) =>
      let s1 :=
        emit (WriteContract target (epochId rig)
                (now / 1000 + DEADLINE_BUFFER_SECONDS)
                (if price rig =? 0 then 0 else Z.quot (price rig * 105) 100)
                (price rig + match entropyFee r with Some f => f | None => 0 end))
          (setPendingEpochId (Some (epochId rig))
             (setPreSpinBalanceRef (Some (unitBalance rig))
                (setLocalSpinState pending s0))) in
      match write with
      | Resolved _ => (Resolved tt, setLocalSpinState confirming s1)
      | Rejected err => (Rejected err, s1)
      end
  | (Rejected err, s0) => (Rejected err, s0)
  end.
Proof.
  unfold trySpin, bind, modify, await.
  destruct (resolveTarget r connect s) as [[target|err] s0]; [|reflexivity].
  destruct write; reflexivity.
Qed.

(** Resolving the target address at most records a connection attempt. *)
Lemma resolveTarget_frame r connect (s : State) :
  snd (resolveTarget r connect s) = s \/
  snd (resolveTarget r connect s) = emit ConnectAsync s.
Proof.
  unfold resolveTarget.
  destruct (truthy (address r)); [now left|].
  destruct (primaryConnector r); [|now left].
  unfold bind, modify, await. right.
  destruct connect as [accounts|err]; [|reflexivity].
  destruct (truthy (hd_error accounts)); reflexivity.
Qed.



(** ** Error paths *)

Lemma pendingEpochId_handleWinDetected (s : State) :
  pendingEpochId (handleWinDetected s) = pendingEpochId s.
Proof.
  unfold handleWinDetected.
  destruct (vrfTimeoutRef s); cbn; destruct (balancePollRef s); reflexivity.
Qed.

Lemma pendingEpochId_scanWinLogs r logs (s : State) :
  pendingEpochId (scanWinLogs r logs s) = pendingEpochId s.
Proof.
  induction logs as [|log rest IH]; simpl; [reflexivity|].
  destruct (_ && _); [|exact IH].
  now rewrite pendingEpochId_handleWinDetected.
Qed.

Lemma pendingEpochId_fireTimer now id (s : State) :
  pendingEpochId (fireTimer now id s) = pendingEpochId s.
Proof.
  unfold fireTimer. destruct (armed id s) as [t|]; [|reflexivity].
  destruct (t_due t <=? now); [|reflexivity].
  destruct (t_every t); destruct (t_callback t); cbn;
    try reflexivity; destruct (balancePollRef s); reflexivity.
Qed.

(** Once an epoch id has been recorded, no event clears it. *)
Lemma pendingEpochId_kept (e : Event) (s : State) (x : Z) :
  pendingEpochId s = Some x -> pendingEpochId (step e s) <> None.
Proof.
  intros Hx. destruct e as [now r connect write | now receipt | r logs | r | now id];
    simpl.
  - unfold handleSpin. destruct (rigState r) as [rig|]; [|congruence].
    destruct (SpinState_eqb (localSpinState s) idle); [|congruence].
    rewrite trySpin_run.
    pose proof (resolveTarget_frame r connect s) as Hframe.
    destruct (resolveTarget r connect s) as [[target|err] s0]; simpl in Hframe.
    + destruct write; discriminate.
    + destruct Hframe as [-> | ->]; cbn; congruence.
  - destruct receipt as [[|]|]; cbn; congruence.
  - unfold onWinLogs. destruct (watcherEnabled r s); [|congruence].
    rewrite pendingEpochId_scanWinLogs. congruence.
  - unfold balanceEffect.
    destruct (localSpinState s); try congruence.
    destruct (rigState r); try congruence.
    destruct (preSpinBalanceRef s); try congruence.
    destruct (_ <? _); [|congruence].
    rewrite pendingEpochId_handleWinDetected. cbn. congruence.
  - rewrite pendingEpochId_fireTimer. congruence.
Qed.

(** C7 (as the code has it): on both error paths the state tag returns to
    idle, the wallet write is reset and no detector is armed.  When the
    connection or the submission throws, the handler logs the error, sets
    the state to idle and resets the write, leaving timers and refs alone.
    A reverted receipt sets the state to idle at once, clears the balance
    snapshot and resets the write.  The pending epoch id is not discarded
    on either path, nor by any other event: it is only overwritten by the
    next submit. *)
Theorem failed_spin_returns_to_idle
    (now : Z) (r : Reads) (connect : Fetch (list string)) (write : Fetch unit)
    (rig : RigState) (s : State) (err : string) :
  localSpinState s = idle ->
  rigState r = Some rig ->
  fst (trySpin now r rig connect write s) = Rejected err ->
  let s' := handleSpin now r connect write s in
  (localSpinState s' = idle /\
   timers s' = timers s /\ nextHandle s' = nextHandle s /\
   vrfTimeoutRef s' = vrfTimeoutRef s /\ balancePollRef s' = balancePollRef s /\
   exists before,
     effects s' =
       before ++ [ConsoleError ("Spin failed: " ++ err)%string; ResetWrite]) /\
  (forall t s0,
     let s'' := onReceipt t (Some reverted) s0 in
     localSpinState s'' = idle /\
     preSpinBalanceRef s'' = None /\
     timers s'' = timers s0 /\ nextHandle s'' = nextHandle s0 /\
     vrfTimeoutRef s'' = vrfTimeoutRef s0 /\
     balancePollRef s'' = balancePollRef s0 /\
     pendingEpochId s'' = pendingEpochId s0 /\
     effects s'' = effects s0 ++ [ResetWrite]) /\
  (forall e s0 x, pendingEpochId s0 = Some x -> pendingEpochId (step e s0) <> None).
Proof.
  intros Hidle Hrig Hthrow s'. split; [|split].
  - subst s'. unfold handleSpin. rewrite Hrig, Hidle. simpl SpinState_eqb.
    cbv iota. rewrite trySpin_run in Hthrow |- *.
    pose proof (resolveTarget_frame r connect s) as Hframe.
    destruct (resolveTarget r connect s) as [[target|err0] s0]; simpl in Hframe.
    + destruct write as [[]|err0]; simpl in Hthrow; [discriminate|].
      injection Hthrow as ->. cbn.
      destruct Hframe as [-> | ->]; cbn; repeat split;
        eexists; rewrite <- app_assoc; reflexivity.
    + simpl in Hthrow. injection Hthrow as ->.
      destruct Hframe as [-> | ->]; cbn; repeat split;
        eexists; rewrite <- app_assoc; reflexivity.
  - intros t s0 s''. subst s''. cbn. repeat split.
  - exact pendingEpochId_kept.
Qed.

(** ** The hard timeout *)

Lemma waiting_after_receipt (t0 : Z) (s : State) :
  timers s = [] ->
  waiting (t0 + VRF_TIMEOUT_MS) (preSpinBalanceRef s) (nextHandle s)
          (onReceipt t0 (Some success) s).
Proof.
  intros Hts. unfold waiting. cbn. rewrite Hts.
  repeat split. now exists (t0 + BALANCE_POLL_INTERVAL_MS).
Qed.

Lemma waiting_step deadline snapshot n (e : Event) (s : State) :
  waiting deadline snapshot n s ->
  quiet deadline snapshot e = true ->
  waiting deadline snapshot n (step e s).
Proof.
  intros Hw Hq. pose proof Hw as (Hst & Hpre & Hv & Hb & nextPoll & Hts).
  destruct e as [now r connect write | now receipt | r logs | r | now id];
    simpl in Hq |- *.
  - rewrite handleSpin_guard; [exact Hw|].
    right. rewrite Hst. discriminate.
  - destruct receipt; [discriminate | exact Hw].
  - unfold onWinLogs. destruct (watcherEnabled r s); [|exact Hw].
    now rewrite scanWinLogs_others.
  - unfold balanceEffect. rewrite Hst, Hpre.
    destruct (rigState r) as [rig|]; [|exact Hw].
    destruct snapshot as [pre|]; [|exact Hw].
    destruct (Z.ltb_spec pre (unitBalance rig)); [|exact Hw].
    apply Z.leb_le in Hq. lia.
  - apply Z.ltb_lt in Hq. unfold fireTimer, armed. rewrite Hts. simpl.
    unfold isHandle at 1. simpl.
    destruct (Pos.eqb_spec n id) as [En|En].
    + simpl. destruct (Z.leb_spec deadline now); [lia | exact Hw].
    + unfold isHandle at 1. simpl.
      destruct (Pos.eqb_spec (Pos.succ n) id) as [Eb|Eb]; [|exact Hw].
      simpl. destruct (nextPoll <=? now); [|exact Hw].
      unfold waiting. cbn. rewrite Hts. cbn. unfold isHandle. cbn.
      subst id. rewrite Pos.eqb_refl.
      destruct (Pos.eqb_spec n (Pos.succ n)); [lia|].
      repeat split; try assumption.
      now exists (nextPoll + BALANCE_POLL_INTERVAL_MS).
Qed.

Lemma waiting_run deadline snapshot n (es : list Event) (s : State) :
  waiting deadline snapshot n s ->
  Forall (fun e => quiet deadline snapshot e = true) es ->
  waiting deadline snapshot n (run es s).
Proof.
  intros Hw Hq. revert s Hw.
  induction Hq as [|e es He _ IH]; intros s Hw; [exact Hw|].
  simpl. apply IH. now apply waiting_step.
Qed.

Lemma waiting_timeout deadline snapshot n (now : Z) (s : State) :
  waiting deadline snapshot n s ->
  (now < deadline -> fireTimer now n s = s) /\
  (deadline <= now ->
   let s' := fireTimer now n s in
   localSpinState s' = idle /\ balancePollRef s' = None /\
   timers s' = [] /\ preSpinBalanceRef s' = None).
Proof.
  intros (Hst & Hpre & Hv & Hb & nextPoll & Hts).
  destruct s as [st ep vref bref pre ts next eff]. simpl in *. subst.
  assert (Hne : Pos.eqb (Pos.succ n) n = false) by (apply Pos.eqb_neq; lia).
  unfold fireTimer, armed, isHandle. cbn. rewrite Pos.eqb_refl. cbn.
  split; intros Hnow.
  - destruct (Z.leb_spec deadline now); [lia | reflexivity].
  - destruct (Z.leb_spec deadline now); [|lia].
    unfold clearTimer, isHandle. cbn.
    rewrite !Pos.eqb_refl, !Hne. cbn. rewrite Pos.eqb_refl. cbn.
    repeat split.
Qed.

(** ** Timers are cancelled with the state they belong to *)

Lemma settled_idle (s : State) :
  localSpinState s = idle -> timers s = [] -> settled s.
Proof. unfold settled. now intros ->. Qed.

Lemma handleWinDetected_from_waiting deadline snapshot n (msg : string)
    (s : State) :
  waiting deadline snapshot n s ->
  settled (handleWinDetected (emit (ConsoleLog msg) s)).
Proof.
  intros (Hst & Hpre & Hv & Hb & nextPoll & Hts).
  destruct s as [st ep vref bref pre ts next eff]. simpl in *. subst.
  assert (Hne : Pos.eqb (Pos.succ n) n = false) by (apply Pos.eqb_neq; lia).
  apply settled_idle; [reflexivity|].
  unfold handleWinDetected, clearTimer, isHandle. cbn.
  rewrite !Pos.eqb_refl, !Hne. cbn. now rewrite Pos.eqb_refl.
Qed.

Lemma scanWinLogs_cases (r : Reads) (logs : list GlobalSpin.WinLog) (s : State) :
  scanWinLogs r logs s = s \/
  scanWinLogs r logs s =
    handleWinDetected
      (emit (ConsoleLog "Win detected via event for current user") s).
Proof.
  induction logs as [|log rest IH]; simpl; [now left|].
  destruct (_ && _); [now right | exact IH].
Qed.

Lemma handleSpin_table now r connect write (s : State) :
  timers (handleSpin now r connect write s) = timers s /\
  (localSpinState s <> waiting_vrf ->
   localSpinState (handleSpin now r connect write s) <> waiting_vrf).
Proof.
  unfold handleSpin. destruct (rigState r) as [rig|]; [|now split].
  destruct (localSpinState s) eqn:Hst; simpl; try (split; congruence).
  rewrite trySpin_run.
  pose proof (resolveTarget_frame r connect s) as Hframe.
  destruct (resolveTarget r connect s) as [[target|err] s0]; simpl in Hframe.
  - destruct write; destruct Hframe as [-> | ->]; cbn; split;
      (reflexivity || discriminate).
  - destruct Hframe as [-> | ->]; cbn; split; (reflexivity || discriminate).
Qed.

Lemma settled_step (e : Event) (s : State) :
  settled s -> orderly e s = true -> settled (step e s).
Proof.
  intros Hs Ho. unfold settled in Hs.
  destruct (localSpinState s) eqn:Hst.
  1-3: assert (Hnw : localSpinState s <> waiting_vrf) by (rewrite Hst; discriminate).
  1-3: assert (Hkeep : settled s) by (unfold settled; now rewrite Hst).
  1-3: destruct e as [now r connect write | now [[|]|] | r logs | r | now id];
       simpl in Ho |- *;
       try (rewrite Hst in Ho; discriminate Ho);
       try exact Hkeep;
       try (rewrite (proj1 (detectors_guarded s Hnw)); exact Hkeep);
       try (rewrite (proj2 (detectors_guarded s Hnw)); exact Hkeep);
       try (rewrite fireTimer_unarmed;
            [exact Hkeep | unfold armed; now rewrite Hs]).
  1-3: try (destruct (handleSpin_table now r connect write s) as [Ht Hn];
            specialize (Hn Hnw); unfold settled;
            destruct (localSpinState (handleSpin now r connect write s));
            try contradiction; now rewrite Ht).
  - (* confirming, receipt success *)
    unfold settled. cbn [localSpinState onReceipt].
    exists (now + VRF_TIMEOUT_MS), (nextHandle s).
    exact (waiting_after_receipt now s Hs).
  - (* confirming, receipt reverted *)
    apply settled_idle; [reflexivity | exact Hs].
  - (* waiting_vrf *)
    destruct Hs as (deadline & n & Hw).
    assert (Hkeep : settled s)
      by (unfold settled; rewrite Hst; now exists deadline, n).
    pose proof Hw as (_ & Hpre & Hv & Hb & nextPoll & Hts).
    assert (Hres : forall msg,
              settled (handleWinDetected (emit (ConsoleLog msg) s)))
      by (intros msg; exact (handleWinDetected_from_waiting _ _ _ msg s Hw)).
    destruct e as [now r connect write | now [[|]|] | r logs | r | now id];
      simpl in Ho |- *; try (rewrite Hst in Ho; discriminate Ho);
      try exact Hkeep.
    + rewrite handleSpin_guard; [exact Hkeep|]. right. rewrite Hst. discriminate.
    + unfold onWinLogs. destruct (watcherEnabled r s); [|exact Hkeep].
      destruct (scanWinLogs_cases r logs s) as [-> | ->]; [exact Hkeep|].
      apply Hres.
    + unfold balanceEffect. rewrite Hst.
      destruct (rigState r) as [rig|]; [|exact Hkeep].
      destruct (preSpinBalanceRef s) as [pre|]; [|exact Hkeep].
      destruct (pre <? unitBalance rig); [|exact Hkeep].
      apply Hres.
    + destruct (Pos.eqb_spec n id) as [En|En].
      * subst id. destruct (Z.lt_ge_cases now deadline) as [Hearly|Hlate].
        -- rewrite (proj1 (waiting_timeout _ _ _ now s Hw) Hearly). exact Hkeep.
        -- destruct (proj2 (waiting_timeout _ _ _ now s Hw) Hlate)
             as (Hi & _ & Ht & _).
           now apply settled_idle.
      * destruct (Pos.eqb_spec (Pos.succ n) id) as [Eb|Eb].
        -- destruct (Z.lt_ge_cases now nextPoll) as [Hearly|Hlate];
             unfold fireTimer, armed, isHandle; rewrite Hts; cbn;
             apply Pos.eqb_neq in En; rewrite En; subst id;
             rewrite Pos.eqb_refl; cbn.
           ++ destruct (Z.leb_spec nextPoll now); [lia | exact Hkeep].
           ++ destruct (Z.leb_spec nextPoll now); [|lia].
              unfold settled. cbn. rewrite Hst.
              exists deadline, n. unfold waiting. cbn.
              rewrite Hst, Hv, Hb, Hts. cbn. unfold isHandle. cbn.
              rewrite En, Pos.eqb_refl.
              repeat split.
              now exists (nextPoll + BALANCE_POLL_INTERVAL_MS).
        -- rewrite fireTimer_unarmed; [exact Hkeep|].
           unfold armed, isHandle. rewrite Hts. cbn.
           apply Pos.eqb_neq in En, Eb. now rewrite En, Eb.
Qed.

Lemma settled_run (es : list Event) (s : State) :
  settled s -> orderlyRun es s = true -> settled (run es s).
Proof.
  revert s. induction es as [|e es IH]; intros s Hs Ho; [exact Hs|].
  simpl in Ho |- *. apply andb_prop in Ho. destruct Ho as [He Hes].
  apply IH; [now apply settled_step | exact Hes].
Qed.

(** In every orderly run from the initial state, no timer is armed unless
    the state is [waiting_vrf]; in particular none is when a receipt
    arrives. *)
Lemma no_timer_outside_waiting (es : list Event) :
  orderlyRun es initial = true ->
  localSpinState (run es initial) <> waiting_vrf ->
  timers (run es initial) = [].
Proof.
  intros Ho Hst.
  assert (Hs : settled (run es initial))
    by (apply settled_run; [reflexivity | exact Ho]).
  unfold settled in Hs.
  destruct (localSpinState (run es initial)); try exact Hs. contradiction.
Qed.

(** C9: after a successful receipt at clock reading [t0], as long as no
    detector fires (whatever else happens: clicks, Win logs of other
    spinners, refreshes without a balance gain, balance polls, the runtime
    looking at timers before the deadline) the state stays [waiting_vrf].
    The hard timeout does nothing before [t0 + 120 000]; fired at or after
    that time it moves the state to idle, cancels the balance poll and
    clears the balance snapshot. *)
Theorem hard_timeout_resolves_at_deadline
    (t0 : Z) (s : State) (es : list Event) :
  timers s = [] ->
  let s1 := onReceipt t0 (Some success) s in
  let deadline := t0 + 120000 in
  Forall (fun e => quiet deadline (preSpinBalanceRef s) e = true) es ->
  let s2 := run es s1 in
  localSpinState s1 = waiting_vrf /\
  localSpinState s2 = waiting_vrf /\
  exists id,
    vrfTimeoutRef s2 = Some id /\
    (forall now, now < deadline -> fireTimer now id s2 = s2) /\
    (forall now, deadline <= now ->
       let s3 := fireTimer now id s2 in
       localSpinState s3 = idle /\ balancePollRef s3 = None /\
       timers s3 = [] /\ preSpinBalanceRef s3 = None).
Proof.
  intros Hts s1 deadline Hquiet s2.
  pose proof (waiting_after_receipt t0 s Hts) as Hw1. fold s1 in Hw1.
  pose proof (waiting_run _ _ _ es s1 Hw1 Hquiet) as Hw2. fold s2 in Hw2.
  split; [apply Hw1|]. split; [apply Hw2|].
  exists (nextHandle s). split; [apply Hw2|].
  split; intros now Hnow; now apply (waiting_timeout _ _ _ now s2 Hw2).
Qed.

(** ** The model run on concrete events *)

(** C7 as stated does not hold: the wallet rejects the write; the state
    is back to idle, yet the epoch id and the balance snapshot recorded by
    the submit are still there. *)
Lemma rejected_submit_keeps_pending_fields :
  let s' := handleSpin 1000000 connected (Resolved [])
              (Rejected "User rejected the request.") initial in
  localSpinState s' = idle /\
  pendingEpochId s' = Some 7 /\
  preSpinBalanceRef s' = Some 100 /\
  ~ (pendingEpochId s' = None /\ preSpinBalanceRef s' = None).
Proof.
  vm_compute. repeat split. intros [E _]. discriminate E.
Qed.

Lemma detector_race_resolves_once_witness :
  localSpinState awaitingVrf = waiting_vrf /\
  present (address connected) = true /\
  existsb (fun log => sameAddress (GlobalSpin.wl_spinner log) (address connected))
          [myWin] = true /\
  preSpinBalanceRef awaitingVrf = Some 100 /\
  100 < 190 /\
  balanceEffect richer (onWinLogs connected [myWin] awaitingVrf) =
    onWinLogs connected [myWin] awaitingVrf.
Proof.
  split; [reflexivity|]. split; [reflexivity|]. split; [reflexivity|].
  split; [reflexivity|]. split; [reflexivity|].
  exact (proj1 (proj2 (proj2
           (detector_race_resolves_once connected richer [myWin]
              {| ups := 4; unitPrice := 1; unitBalance := 190;
                 ethBalance := 4000; wethBalance := 0; prizePool := 8910;
                 pendingEmissions := 0; epochId := 8; price := 1000 |}
              100 awaitingVrf
              eq_refl eq_refl eq_refl eq_refl eq_refl eq_refl)))).
Defined.



Lemma failed_spin_returns_to_idle_witness :
  localSpinState initial = idle /\
  rigState connected = Some myRig /\
  fst (trySpin 1000000 connected myRig (Resolved [])
         (Rejected "User rejected the request.") initial)
    = Rejected "User rejected the request." /\
  localSpinState
    (handleSpin 1000000 connected (Resolved [])
       (Rejected "User rejected the request.") initial) = idle.
Proof.
  split; [reflexivity|]. split; [reflexivity|]. split; [reflexivity|].
  exact (proj1 (proj1
           (failed_spin_returns_to_idle 1000000 connected (Resolved [])
              (Rejected "User rejected the request.") myRig initial
              "User rejected the request." eq_refl eq_refl eq_refl))).
Defined.

Lemma hard_timeout_resolves_at_deadline_witness :
  timers confirmed = [] /\
  Forall (fun e => quiet (1004000 + 120000) (preSpinBalanceRef confirmed) e = true)
         uneventful /\
  localSpinState (run uneventful awaitingVrf) = waiting_vrf.
Proof.
  assert (Hquiet : Forall (fun e => quiet (1004000 + 120000)
                                      (preSpinBalanceRef confirmed) e = true)
                          uneventful)
    by (repeat constructor).
  split; [reflexivity|]. split; [exact Hquiet|].
  exact (proj1 (proj2
           (hard_timeout_resolves_at_deadline 1004000 confirmed uneventful
              eq_refl Hquiet))).
Defined.

End PageFacts.

(** * The global activity hook over time *)

Module HookRunsFacts.
Import GlobalSpin GlobalSpinFacts HookRuns.

#[local] Arguments String.eqb : simpl never.
#[local] Arguments spinIdOf : simpl never.
#[local] Arguments winIdOf : simpl never.

(** ** Lists of timers *)

Lemma NoDup_handles_filter (g : Timer -> bool) (l : list Timer) :
  NoDup (map t_handle l) -> NoDup (map t_handle (filter g l)).
Proof.
  induction l as [|t l IH]; simpl; intros Hnd; [constructor|].
  inversion Hnd as [|x xs Hnotin Hrest]; subst.
  destruct (g t); simpl; [|now apply IH].
  constructor; [|now apply IH].
  intros Hin. apply Hnotin. apply in_map_iff in Hin.
  destruct Hin as (t' & E & Hin'). apply filter_In in Hin'.
  apply in_map_iff. exists t'. now split.
Qed.

Lemma NoDup_handles_survivors (ref : option Handle) (l : list Timer) :
  NoDup (map t_handle l) -> NoDup (map t_handle (survivors ref l)).
Proof. destruct ref; simpl; [apply NoDup_handles_filter | trivial]. Qed.

Lemma NoDup_handles_snoc (l : list Timer) (t : Timer) :
  NoDup (map t_handle l) ->
  Forall (fun t' => (t_handle t' < t_handle t)%positive) l ->
  NoDup (map t_handle (l ++ [t])).
Proof.
  intros Hnd Hlt. rewrite map_app. simpl.
  apply NoDup_app; [exact Hnd | repeat constructor; intros [] |].
  intros x Hx [<- | []]. apply in_map_iff in Hx.
  destruct Hx as (t' & E & Hin). rewrite Forall_forall in Hlt.
  specialize (Hlt t' Hin). lia.
Qed.

Lemma at_most_one (p : Timer -> bool) (c : Handle) (l : list Timer) :
  NoDup (map t_handle l) ->
  (forall t, In t l -> p t = true -> t_handle t = c) ->
  (List.length (filter p l) <= 1)%nat.
Proof.
  induction l as [|t l IH]; simpl; intros Hnd Hc; [lia|].
  inversion Hnd as [|x xs Hnotin Hrest]; subst.
  assert (IH' : (List.length (filter p l) <= 1)%nat)
    by (apply IH; [assumption | intros t' Hin; apply Hc; now right]).
  destruct (p t) eqn:Hp; [|exact IH'].
  destruct (filter p l) as [|t' rest] eqn:Hf; [simpl; lia|].
  exfalso. apply Hnotin.
  assert (Hin : In t' (filter p l)) by (rewrite Hf; now left).
  apply filter_In in Hin. destruct Hin as [Hin Hp'].
  apply in_map_iff. exists t'. split; [|exact Hin].
  rewrite (Hc t (or_introl eq_refl) Hp). apply Hc; [now right | exact Hp'].
Qed.

Section Facts.
Context `{Formatting}.

(** ** How each piece of code changes the table *)

Lemma table_spinLogResume now log user (h : Hook) :
  timers (spinLogResume now log user h) =
    survivors (spinTimeoutRef h) (timers h) ++
    [ {| t_handle := nextHandle h; t_due := now + SPIN_TIMEOUT_MS;
         t_callback := ExpireSpin (spinIdOf log) |} ].
Proof.
  destruct h as [sp lw live shown sref wref fetched ts next out].
  destruct user; destruct sref; reflexivity.
Qed.

Lemma table_winLogResume now log user (h : Hook) :
  timers (winLogResume now log user h) =
    survivors (winDisplayRef h) (timers h) ++
    [ {| t_handle := nextHandle h; t_due := now + 10000;
         t_callback := HideWin |} ].
Proof.
  destruct h as [sp lw live shown sref wref fetched ts next out].
  destruct user; destruct wref; reflexivity.
Qed.

Lemma table_winLogBegin now log (h : Hook) :
  timers (winLogBegin now log h) = survivors (spinTimeoutRef h) (timers h).
Proof.
  destruct h as [sp lw live shown sref wref fetched ts next out].
  destruct sref; reflexivity.
Qed.

Lemma table_fireTimer now id (h : Hook) :
  timers (fireTimer now id h) = timers h \/
  timers (fireTimer now id h) = survivors (Some id) (timers h).
Proof.
  unfold fireTimer. destruct (armed id h) as [t|]; [|now left].
  destruct (t_due t <=? now); [|now left].
  right. destruct (t_callback t); reflexivity.
Qed.

Lemma tidy_step (e : Event) (h : Hook) : tidy h -> tidy (step e h).
Proof.
  intros [Hc Hnd]. split.
  - destruct e; cbn [step].
    + now apply consistent_spinLogBegin.
    + now apply consistent_spinLogResume.
    + now apply consistent_winLogBegin.
    + now apply consistent_winLogResume.
    + unfold mountEffect. destruct publicClient; [|exact Hc].
      destruct (hasFetchedInitial h); [exact Hc|].
      revert Hc. now apply consistent_same_table.
    + now apply consistent_fetchRecentWin.
    + now apply consistent_fireTimer.
  - destruct e; cbn [step].
    + exact Hnd.
    + rewrite table_spinLogResume. apply NoDup_handles_snoc.
      * now apply NoDup_handles_survivors.
      * apply survivors_fresh, fresh_of_consistent, Hc.
    + rewrite table_winLogBegin. now apply NoDup_handles_survivors.
    + rewrite table_winLogResume. apply NoDup_handles_snoc.
      * now apply NoDup_handles_survivors.
      * apply survivors_fresh, fresh_of_consistent, Hc.
    + unfold mountEffect. destruct publicClient; [|exact Hnd].
      now destruct (hasFetchedInitial h).
    + destruct (fetchRecentWin_frame now client user h) as (_ & _ & _ & -> & _).
      exact Hnd.
    + destruct (table_fireTimer now id h) as [-> | ->]; [exact Hnd|].
      now apply NoDup_handles_survivors.
Qed.

Lemma tidy_run (es : list Event) (h : Hook) : tidy h -> tidy (run es h).
Proof.
  revert h. induction es as [|e es IH]; intros h Ht; [exact Ht|].
  simpl. apply IH. now apply tidy_step.
Qed.

Lemma tidy_initial : tidy initial.
Proof. split; constructor. Qed.

(** X1: Whatever the watchers deliver and however their two halves, the
    mount-time fetch and the timers interleave, the hook never has more than
    one liveness timeout and one display timeout pending, and each pending
    timer is the one its ref points to. *)
Theorem timers_never_pile_up (es : list Event) :
  let h := run es initial in
  consistent h /\
  (List.length (filter isLiveness (timers h)) <= 1)%nat /\
  (List.length (filter isDisplay (timers h)) <= 1)%nat /\
  (List.length (timers h) <= 2)%nat.
Proof.
  intros h. destruct (tidy_run es initial tidy_initial) as [Hc Hnd].
  fold h in Hc, Hnd.
  assert (Hrefs : forall t, In t (timers h) ->
                    refFor (t_callback t) h = Some (t_handle t)).
  { unfold consistent in Hc. rewrite Forall_forall in Hc.
    intros t Hin. now destruct (Hc t Hin). }
  assert (Hl : (List.length (filter isLiveness (timers h)) <= 1)%nat).
  { destruct (spinTimeoutRef h) as [r|] eqn:Hr.
    - apply (at_most_one isLiveness r); [exact Hnd|].
      intros t Hin Hp. specialize (Hrefs t Hin). unfold isLiveness in Hp.
      destruct (t_callback t); [|discriminate]. simpl in Hrefs. congruence.
    - apply (at_most_one isLiveness 1%positive); [exact Hnd|].
      intros t Hin Hp. specialize (Hrefs t Hin). unfold isLiveness in Hp.
      destruct (t_callback t); [|discriminate]. simpl in Hrefs. congruence. }
  assert (Hd : (List.length (filter isDisplay (timers h)) <= 1)%nat).
  { destruct (winDisplayRef h) as [r|] eqn:Hr.
    - apply (at_most_one isDisplay r); [exact Hnd|].
      intros t Hin Hp. specialize (Hrefs t Hin). unfold isDisplay in Hp.
      destruct (t_callback t); [discriminate|]. simpl in Hrefs. congruence.
    - apply (at_most_one isDisplay 1%positive); [exact Hnd|].
      intros t Hin Hp. specialize (Hrefs t Hin). unfold isDisplay in Hp.
      destruct (t_callback t); [discriminate|]. simpl in Hrefs. congruence. }
  split; [exact Hc|]. split; [exact Hl|]. split; [exact Hd|].
  assert (Hsum : List.length (timers h) =
                 (List.length (filter isLiveness (timers h)) +
                  List.length (filter isDisplay (timers h)))%nat).
  { clear. induction (timers h) as [|t l IH]; simpl; [reflexivity|].
    unfold isLiveness at 1, isDisplay at 1.
    destruct (t_callback t); simpl; lia. }
  lia.
Qed.

(** X2: After the unmount cleanup of any reachable state no timer is pending:
    nothing the hook armed can run once the component is gone, and the
    cleanup itself leaves the four cells as they were. *)
Theorem unmount_leaves_no_timer (es : list Event) :
  let h := run es initial in
  timers (unmount h) = [] /\
  cells (unmount h) = cells h /\
  forall now id, fireTimer now id (unmount h) = unmount h.
Proof.
  intros h. destruct (tidy_run es initial tidy_initial) as [Hc _].
  fold h in Hc.
  assert (Ht : timers (unmount h) = []).
  { unfold unmount.
    assert (E : timers (clearIfSet (winDisplayRef (clearIfSet (spinTimeoutRef h) h))
                          (clearIfSet (spinTimeoutRef h) h)) =
                survivors (winDisplayRef h) (survivors (spinTimeoutRef h) (timers h))).
    { rewrite timers_clearIfSet. rewrite timers_clearIfSet.
      now destruct (spinTimeoutRef h). }
    rewrite E.
    pose proof (no_timer_survives_both h) as Hnone.
    destruct (survivors _ _) as [|t rest]; [reflexivity|].
    exfalso. apply (Hnone t Hc). now left. }
  split; [exact Ht|]. split.
  - unfold unmount, cells. clearbody h.
    destruct (spinTimeoutRef h); cbn; destruct (winDisplayRef h); reflexivity.
  - intros now id. unfold fireTimer, armed. now rewrite Ht.
Qed.

(** ** Batches, and what the feed shows over time *)

Lemma consistent_onWinLogs (ds : list (Delivery WinLog)) (h : Hook) :
  consistent h -> consistent (onWinLogs ds h).
Proof.
  revert h. induction ds as [|d ds IH]; intros h Hc; [exact Hc|].
  simpl. apply IH. now apply consistent_applyWin.
Qed.

Lemma consistent_onSpinLogs (ds : list (Delivery SpinLog)) (h : Hook) :
  consistent h -> consistent (onSpinLogs ds h).
Proof.
  revert h. induction ds as [|d ds IH]; intros h Hc; [exact Hc|].
  simpl. apply IH. now apply consistent_applySpin.
Qed.

Lemma no_liveness_survives (h : Hook) :
  consistent h ->
  filter isLiveness (survivors (spinTimeoutRef h) (timers h)) = [].
Proof.
  intros Hc. unfold consistent in Hc. rewrite Forall_forall in Hc.
  destruct (filter isLiveness (survivors (spinTimeoutRef h) (timers h)))
    as [|t rest] eqn:Hf; [reflexivity|].
  exfalso.
  assert (Hin : In t (filter isLiveness (survivors (spinTimeoutRef h) (timers h))))
    by (rewrite Hf; now left).
  apply filter_In in Hin. destruct Hin as [Hin Hp].
  apply survivors_In in Hin. destruct Hin as [Hin Hne].
  destruct (Hc t Hin) as [_ Href]. unfold isLiveness in Hp.
  destruct (t_callback t); [|discriminate]. simpl in Href. congruence.
Qed.

(** X3: When a batch of logs has been handled, only its last log shows.  After
    a batch of Wins the cells are those of the last Win, highlighted, and the
    table holds its display timer and nothing else.  After a batch of Spins
    the last Spin is the active one, the last win is untouched, and the only
    liveness timer pending is the one of that last Spin. *)
Theorem batch_shows_its_last_log
    (wins : list (Delivery WinLog)) (dw : Delivery WinLog)
    (spins : list (Delivery SpinLog)) (ds : Delivery SpinLog) (h : Hook) :
  consistent h ->
  let won := onWinLogs (wins ++ [dw]) h in
  let spun := onSpinLogs (spins ++ [ds]) h in
  cells won =
    (None, Some (winWithUser (d_user dw) (newWinOf (d_start dw) (d_log dw))),
     false, true) /\
  (exists t, winDisplayRef won = Some t /\
     timers won = [ {| t_handle := t; t_due := d_resumed dw + 10000;
                       t_callback := HideWin |} ]) /\
  cells spun =
    (Some (spinWithUser (d_user ds) (newSpinOf (d_start ds) (d_log ds))),
     lastWin h, true, false) /\
  (exists t, spinTimeoutRef spun = Some t /\
     filter isLiveness (timers spun) =
       [ {| t_handle := t; t_due := d_resumed ds + 120000;
            t_callback := ExpireSpin (spinIdOf (d_log ds)) |} ]).
Proof.
  intros Hc won spun.
  assert (Ew : won = applyWin dw (onWinLogs wins h))
    by (subst won; unfold onWinLogs; now rewrite fold_left_app).
  assert (Es : spun = applySpin ds (onSpinLogs spins h))
    by (subst spun; unfold onSpinLogs; now rewrite fold_left_app).
  pose proof (consistent_onWinLogs wins h Hc) as Hcw.
  pose proof (consistent_onSpinLogs spins h Hc) as Hcs.
  assert (Hlw : lastWin (onSpinLogs spins h) = lastWin h).
  { clear. revert h. induction spins as [|d l IH]; intros h; [reflexivity|].
    simpl. rewrite IH. now rewrite applySpin_unfold. }
  rewrite Ew, Es. clear Ew Es won spun.
  rewrite applyWin_unfold, applySpin_unfold. unfold cells. simpl.
  split; [reflexivity|]. split; [|split].
  - exists (nextHandle (onWinLogs wins h)). split; [reflexivity|].
    pose proof (no_timer_survives_both (onWinLogs wins h)) as Hnone.
    destruct (survivors _ _) as [|t rest]; [reflexivity|].
    exfalso. apply (Hnone t Hcw). now left.
  - now rewrite Hlw.
  - exists (nextHandle (onSpinLogs spins h)). split; [reflexivity|].
    rewrite filter_app, (no_liveness_survives _ Hcs). reflexivity.
Qed.

(** X4: A win stays on the feed after a later spin has come and gone: the win
    is shown highlighted; a spin that follows takes over the feed while
    [lastWin] is kept; and when that spin's liveness timeout fires without a
    new Win, the feed shows the same win again, no longer highlighted. *)
Theorem feed_falls_back_to_last_win
    (dw : Delivery WinLog) (ds : Delivery SpinLog) (h : Hook) :
  consistent h ->
  let won := applyWin dw h in
  let spun := applySpin ds won in
  let win := winWithUser (d_user dw) (newWinOf (d_start dw) (d_log dw)) in
  ActivityFeed won = ShowWin win true /\
  ActivityFeed spun =
    ShowSpinning (spinWithUser (d_user ds) (newSpinOf (d_start ds) (d_log ds))) /\
  exists t,
    spinTimeoutRef spun = Some t /\
    forall now, d_resumed ds + 120000 <= now ->
      ActivityFeed (fireTimer now t spun) = ShowWin win false.
Proof.
  intros Hc won spun win.
  pose proof (consistent_applyWin dw h Hc) as Hcw. fold won in Hcw.
  destruct (applySpin_arms ds won Hcw) as (t & Href & Harmed). fold spun in Href, Harmed.
  assert (Hwon : ActivityFeed won = ShowWin win true)
    by (subst won win; now rewrite applyWin_unfold).
  assert (Hlast : lastWin won = Some win)
    by (subst won win; now rewrite applyWin_unfold).
  clearbody won.
  assert (Hspun : ActivityFeed spun =
            ShowSpinning (spinWithUser (d_user ds)
                            (newSpinOf (d_start ds) (d_log ds))))
    by (subst spun; now rewrite applySpin_unfold).
  assert (Hs : activeSpin spun =
            Some (spinWithUser (d_user ds) (newSpinOf (d_start ds) (d_log ds))) /\
          lastWin spun = Some win /\ showWinResult spun = false).
  { subst spun. rewrite applySpin_unfold. simpl. now rewrite Hlast. }
  destruct Hs as (Hactive & Hlw & Hshown).
  clearbody spun.
  split; [exact Hwon|]. split; [exact Hspun|].
  exists t. split; [exact Href|]. intros now Hnow.
  set (tm := {| t_handle := t; t_due := d_resumed ds + 120000;
                t_callback := ExpireSpin (spinIdOf (d_log ds)) |}) in Harmed.
  change (fireTimer now t spun) with (fireTimer now (t_handle tm) spun).
  rewrite (fireTimer_due spun tm now Harmed Hnow). cbn [t_callback t_handle tm].
  unfold ActivityFeed. simpl. now rewrite Hlw, Hshown.
Qed.

End Facts.

(** ** The symbol table *)

(** X5: Looking a symbol up by its own odds gives that symbol back (the odds of
    the table are pairwise distinct); any other odds value falls back to the
    first entry, Cherry, so the symbol shown for a win with unlisted odds
    carries odds that differ from the win's. *)
Theorem getSymbolFromOdds_table :
  (forall s, In s SLOT_SYMBOLS -> getSymbolFromOdds (oddsBps s) = s) /\
  (forall odds,
     In (getSymbolFromOdds odds) SLOT_SYMBOLS /\
     (oddsBps (getSymbolFromOdds odds) <> odds ->
      name (getSymbolFromOdds odds) = "Cherry"%string /\
      oddsBps (getSymbolFromOdds odds) = 100)).
Proof.
  split.
  - intros s Hin. simpl in Hin.
    repeat (destruct Hin as [<- | Hin]; [reflexivity|]). destruct Hin.
  - intros odds. unfold getSymbolFromOdds.
    destruct (find (fun s => oddsBps s =? odds) SLOT_SYMBOLS) as [s|] eqn:Hf.
    + apply find_some in Hf. destruct Hf as [Hin Heq]. split; [exact Hin|].
      apply Z.eqb_eq in Heq. intros Hne. contradiction.
    + split; [now left | intros _; now split].
Qed.

Lemma getSymbolFromOdds_table_witness :
  In (nth 5 SLOT_SYMBOLS (getSymbolFromOdds 0)) SLOT_SYMBOLS /\
  tier (getSymbolFromOdds 5000) = jackpot /\
  getSymbolFromOdds 777 = getSymbolFromOdds 100.
Proof.
  assert (Hin : In (nth 5 SLOT_SYMBOLS (getSymbolFromOdds 0)) SLOT_SYMBOLS)
    by (simpl; tauto).
  split; [exact Hin|]. split.
  - exact (f_equal tier (proj1 getSymbolFromOdds_table _ Hin)).
  - reflexivity.
Defined.

Lemma batch_shows_its_last_log_witness :
  consistent initial /\
  isGlobalSpinning
    (onSpinLogs ([delivered bobSpinLog 50] ++ [delivered bobSpinLog 100])
       initial) = true.
Proof.
  split; [constructor|].
  pose proof (@batch_shows_its_last_log rawFormatting
                [] (delivered jackpotLog 10)
                [delivered bobSpinLog 50] (delivered bobSpinLog 100)
                initial (Forall_nil _)) as P.
  exact (f_equal (fun c => snd (fst c)) (proj1 (proj2 (proj2 P)))).
Defined.

Lemma feed_falls_back_to_last_win_witness :
  consistent initial /\
  ActivityFeed (@applyWin rawFormatting (delivered jackpotLog 10) initial) =
    ShowWin (winWithUser None (@newWinOf rawFormatting 10 jackpotLog)) true.
Proof.
  split; [constructor|].
  exact (proj1 (@feed_falls_back_to_last_win rawFormatting
                  (delivered jackpotLog 10) (delivered bobSpinLog 100)
                  initial (Forall_nil _))).
Defined.

End HookRunsFacts.

(** * Properties of the activity feed helpers *)

Module FeedFacts.
Import GlobalSpin Feed.

Lemma floor_brackets (a b : Z) :
  0 < b -> b * (a / b) <= a < b * (a / b) + b.
Proof.
  intros Hb. pose proof (Z.div_mod a b). pose proof (Z.mod_pos_bound a b Hb).
  lia.
Qed.

(** X6: [timeAgo] prints the largest whole number of units that fits in the
    elapsed time, in the coarsest unit that has at least one: the number
    [n] and unit [u] satisfy [n * u <= elapsed < (n + 1) * u] (also for a
    timestamp in the future, where a negative number of seconds is
    printed), [n] is at least 1 unless the unit is seconds, and it stays
    below 60 for seconds and minutes and below 24 for hours. *)
Theorem timeAgo_brackets_elapsed (now timestamp : Z) :
  let n := fst (timeAgoParts now timestamp) in
  let u := snd (timeAgoParts now timestamp) in
  timeAgo now timestamp = (bigintToString n ++ suffix u)%string /\
  n * millis u <= now - timestamp < (n + 1) * millis u /\
  (u = Seconds \/ 1 <= n) /\
  match limit u with
  | Some most => n <= most
  | None => True
  end.
Proof.
  unfold timeAgo, timeAgoParts.
  remember (now - timestamp) as elapsed eqn:He. clear He.
  pose proof (floor_brackets elapsed 1000 eq_refl) as Bs.
  pose proof (floor_brackets (elapsed / 1000) 60 eq_refl) as Bm.
  pose proof (floor_brackets (elapsed / 1000 / 60) 60 eq_refl) as Bh.
  pose proof (floor_brackets (elapsed / 1000 / 60 / 60) 24 eq_refl) as Bd.
  destruct (Z.ltb_spec (elapsed / 1000) 60) as [Hs|Hs]; simpl.
  { split; [reflexivity|]. split; [lia|]. split; [now left | lia]. }
  destruct (Z.ltb_spec (elapsed / 1000 / 60) 60) as [Hm|Hm]; simpl.
  { split; [reflexivity|]. split; [lia|]. split; [right; lia | lia]. }
  destruct (Z.ltb_spec (elapsed / 1000 / 60 / 60) 24) as [Hh|Hh]; simpl.
  { split; [reflexivity|]. split; [lia|]. split; [right; lia | lia]. }
  split; [reflexivity|]. split; [lia|]. split; [right; lia | exact I].
Qed.

Lemma upper_of_alnum (c : ascii) :
  isAlnum c = true -> isUpperAlnum (upperAscii c) = true.
Proof.
  destruct c as [[] [] [] [] [] [] [] []]; vm_compute; congruence.
Qed.

Lemma stripped_is_alnum (s : string) :
  allChars isAlnum (stripNonAlnum s) = true.
Proof.
  induction s as [|c rest IH]; simpl; [reflexivity|].
  destruct (isAlnum c) eqn:Hc; simpl; [now rewrite Hc | exact IH].
Qed.

(** X7: For a label with at least one ASCII letter or digit, [initialsFrom]
    returns the first one or two of them in upper case: one or two
    characters, each in [A-Z0-9], whatever else the label contains. *)
Theorem initialsFrom_shape (l : string) :
  stripNonAlnum l <> EmptyString ->
  let r := initialsFrom (Some l) in
  r = toUpperCase (substring 0 2 (stripNonAlnum l)) /\
  (1 <= String.length r <= 2)%nat /\
  allChars isUpperAlnum r = true.
Proof.
  intros Hne r.
  pose proof (stripped_is_alnum l) as Hall.
  assert (E : r = toUpperCase (substring 0 2 (stripNonAlnum l))).
  { subst r. unfold initialsFrom. destruct l as [|a l']; [now elim Hne|].
    destruct (stripNonAlnum (String a l')); [now elim Hne | reflexivity]. }
  split; [exact E|]. rewrite E. clear E r.
  destruct (stripNonAlnum l) as [|c rest]; [now elim Hne|].
  simpl in Hall. apply andb_prop in Hall. destruct Hall as [Hc Hrest].
  destruct rest as [|c' rest']; simpl.
  - split; [lia|]. now rewrite (upper_of_alnum c Hc).
  - simpl in Hrest. apply andb_prop in Hrest. destruct Hrest as [Hc' _].
    assert (E0 : substring 0 0 rest' = EmptyString) by (now destruct rest').
    rewrite E0. simpl. split; [lia|].
    now rewrite (upper_of_alnum c Hc), (upper_of_alnum c' Hc').
Qed.

Lemma initials_of_0x (tail : string) :
  initialsFrom (Some (String "0" (String "x" tail))) = "0X"%string.
Proof.
  assert (H0 : isAlnum "0" = true) by reflexivity.
  assert (Hx : isAlnum "x" = true) by reflexivity.
  unfold initialsFrom. cbn [stripNonAlnum]. rewrite H0, Hx.
  cbn [substring].
  assert (E0 : substring 0 0 (stripNonAlnum tail) = EmptyString)
    by (now destruct (stripNonAlnum tail)).
  rewrite E0. reflexivity.
Qed.

(** X8: With no user info, or none that carries a name, the feed labels a
    spinner by its shortened address, and the avatar fallback of every
    such entry reads "0X". *)
Theorem anonymous_spinner_initials
    (user : option UserInfo) (spinner rest : string) :
  anonymous user = true ->
  spinner = ("0x" ++ rest)%string ->
  displayNameOf user spinner = shortAddress spinner /\
  initialsFrom (Some (displayNameOf user spinner)) = "0X"%string.
Proof.
  intros Hanon ->.
  assert (E : displayNameOf user ("0x" ++ rest) = shortAddress ("0x" ++ rest)).
  { unfold displayNameOf, anonymous in *. destruct user as [u|]; [|reflexivity].
    destruct (displayName u) as [[|]|]; destruct (username u) as [[|]|];
      try discriminate; reflexivity. }
  split; [exact E|]. rewrite E.
  change (shortAddress ("0x" ++ rest))
    with (String "0" (String "x"
            (substring 0 4 rest ++ "..." ++ lastChars 4 ("0x" ++ rest))))%string.
  apply initials_of_0x.
Qed.

Lemma initialsFrom_shape_witness :
  stripNonAlnum "d.eth" <> EmptyString /\
  initialsFrom (Some "d.eth"%string) = "DE"%string.
Proof.
  assert (Hne : stripNonAlnum "d.eth" <> EmptyString) by discriminate.
  split; [exact Hne|].
  exact (proj1 (initialsFrom_shape "d.eth" Hne)).
Defined.

Lemma anonymous_spinner_initials_witness :
  anonymous None = true /\
  bob = ("0x" ++ "B0b0000000000000000000000000000000000002")%string /\
  initialsFrom (Some (displayNameOf None bob)) = "0X"%string.
Proof.
  split; [reflexivity|]. split; [reflexivity|].
  exact (proj2 (anonymous_spinner_initials None bob
                  "B0b0000000000000000000000000000000000002"
                  eq_refl eq_refl)).
Defined.

End FeedFacts.

(** * Properties of what the page renders and of its other effects *)

Module PageViewFacts.
Import Page PageFacts PageView.

(** ** Prize pool interpolation *)

(** X9: Between two refreshes the displayed pool starts at the fetched total
    (prize pool plus pending emissions) and, when the rate is positive and
    the total is not zero, grows by exactly the rate each second.  A total of
    zero stays at zero whatever the rate, because a displayed [0n] is reset
    to the total on every tick; a rate of zero leaves the total unchanged. *)
Theorem pool_grows_by_ups (rig : RigState) (n : nat) :
  0 <= prizePool rig + pendingEmissions rig ->
  let total := prizePool rig + pendingEmissions rig in
  poolAfter rig n =
    Some (if (0 <? ups rig) && (0 <? total)
          then total + Z.of_nat n * ups rig
          else total).
Proof.
  intros Htotal total. unfold poolAfter.
  induction n as [|n IH].
  - simpl. fold total. destruct ((0 <? ups rig) && (0 <? total)); f_equal; lia.
  - rewrite Nat.iter_succ, IH. unfold poolTick. fold total.
    destruct (Z.ltb_spec 0 (ups rig)) as [Hu|Hu]; cbn [andb]; [|reflexivity].
    destruct (Z.ltb_spec 0 total) as [Ht|Ht].
    + destruct (Z.eqb_spec (total + Z.of_nat n * ups rig) 0) as [E|E]; [nia|].
      f_equal. rewrite Nat2Z.inj_succ. nia.
    + assert (E : total = 0) by (subst total; lia). now rewrite E.
Qed.

(** ** The spin button *)

Lemma handleSpin_records (now : Z) (r : Reads) (connect : Fetch (list string))
    (write : Fetch unit) (rig : RigState) (s : State) :
  rigState r = Some rig -> localSpinState s = idle ->
  (List.length (effects s) <
   List.length (effects (handleSpin now r connect write s)))%nat.
Proof.
  intros Hrig Hidle. unfold handleSpin. rewrite Hrig, Hidle. simpl SpinState_eqb.
  cbv iota. rewrite trySpin_run.
  pose proof (resolveTarget_frame r connect s) as Hframe.
  destruct (resolveTarget r connect s) as [[target|err] s0]; simpl in Hframe.
  - destruct write; destruct Hframe as [-> | ->]; cbn;
      rewrite ?length_app; simpl; lia.
  - destruct Hframe as [-> | ->]; cbn; rewrite ?length_app; simpl; lia.
Qed.

(** X10: The button is enabled only when a click does something.  When it is
    enabled its label is SPIN, nothing is spinning, the wallet covers the
    price, and a click is never ignored: it either submits or logs a failure.
    Conversely, whenever the click handler would return at once (rig state
    not loaded or action in flight), the button is disabled. *)
Theorem enabled_button_spins
    (r : Reads) (isWriting isConfirming isGlobalSpinning : bool) (s : State)
    (now : Z) (connect : Fetch (list string)) (write : Fetch unit) :
  (isSpinDisabled r isWriting isConfirming isGlobalSpinning s = false ->
   buttonLabel r s = "SPIN"%string /\
   isSpinning isGlobalSpinning s = false /\
   (exists rig, rigState r = Some rig /\ price rig <= ethBalance rig) /\
   handleSpin now r connect write s <> s) /\
  (rigState r = None \/ localSpinState s <> idle ->
   isSpinDisabled r isWriting isConfirming isGlobalSpinning s = true).
Proof.
  split.
  - unfold isSpinDisabled, buttonLabel, isSpinning. intros Hen.
    destruct (rigState r) as [rig|] eqn:Hrig; [|discriminate].
    repeat (apply orb_false_elim in Hen; destruct Hen as [Hen ?]).
    destruct (localSpinState s) eqn:Hst; try discriminate.
    subst. split; [reflexivity|]. split; [reflexivity|]. split.
    + exists rig. split; [reflexivity|]. apply Z.ltb_ge. assumption.
    + intros E.
      pose proof (handleSpin_records now r connect write rig s Hrig Hst) as Hlen.
      rewrite E in Hlen. lia.
  - unfold isSpinDisabled. intros [-> | Hbusy]; [reflexivity|].
    destruct (rigState r); [|reflexivity].
    destruct (localSpinState s); try reflexivity. contradiction.
Qed.

(** ** The submitted transaction *)

(** X11: A submit that goes through hands the wallet one write: for the epoch of
    the latest snapshot, paying the price plus the entropy fee (zero if
    unknown), with a price cap of the price plus five percent rounded down,
    and a deadline between 899 and 900 seconds after the click.  The account
    is the connected address when there is one. *)
Theorem submitted_write_arguments
    (now : Z) (r : Reads) (connect : Fetch (list string)) (rig : RigState)
    (s : State) :
  localSpinState s = idle ->
  rigState r = Some rig ->
  0 <= price rig ->
  fst (trySpin now r rig connect (Resolved tt) s) = Resolved tt ->
  exists account deadline maxPrice,
    lastWrite (handleSpin now r connect (Resolved tt) s) =
      Some (WriteContract account (epochId rig) deadline maxPrice
              (price rig + match entropyFee r with Some f => f | None => 0 end)) /\
    (truthy (address r) = None \/ truthy (address r) = Some account) /\
    price rig <= maxPrice /\
    100 * maxPrice <= 105 * price rig < 100 * maxPrice + 100 /\
    now + 899001 <= 1000 * deadline <= now + 900000.
Proof.
  intros Hidle Hrig Hprice Hok.
  unfold handleSpin. rewrite Hrig, Hidle. simpl SpinState_eqb. cbv iota.
  rewrite trySpin_run in Hok |- *.
  assert (Haccount : forall target s0,
            resolveTarget r connect s = (Resolved target, s0) ->
            truthy (address r) = None \/ truthy (address r) = Some target).
  { intros target s0. unfold resolveTarget.
    destruct (truthy (address r)) as [a|]; [|now left].
    unfold ret. intros E. injection E as -> _. now right. }
  destruct (resolveTarget r connect s) as [[target|err] s0] eqn:Hres;
    [|discriminate].
  exists target, (now / 1000 + DEADLINE_BUFFER_SECONDS),
    (if price rig =? 0 then 0 else Z.quot (price rig * 105) 100).
  split.
  { unfold lastWrite. cbn. rewrite rev_unit. reflexivity. }
  split; [exact (Haccount target s0 eq_refl)|].
  assert (Hcap : price rig <= (if price rig =? 0 then 0
                               else Z.quot (price rig * 105) 100) /\
                 100 * (if price rig =? 0 then 0
                        else Z.quot (price rig * 105) 100)
                   <= 105 * price rig
                   < 100 * (if price rig =? 0 then 0
                            else Z.quot (price rig * 105) 100) + 100).
  { destruct (Z.eqb_spec (price rig) 0) as [E|E]; [lia|].
    rewrite Z.quot_div_nonneg by lia.
    pose proof (Z.div_mod (price rig * 105) 100).
    pose proof (Z.mod_pos_bound (price rig * 105) 100). lia. }
  split; [apply Hcap|]. split; [apply Hcap|].
  unfold DEADLINE_BUFFER_SECONDS.
  pose proof (Z.div_mod now 1000). pose proof (Z.mod_pos_bound now 1000). lia.
Qed.

(** ** Timers and the state tag *)

(** X12: In every orderly run from the initial state the timer table follows
    the state tag: outside [waiting_vrf] no timer is pending, and while
    waiting exactly two are, the hard timeout and the balance poll, each
    behind its ref. *)
Theorem timers_follow_the_state (es : list Event) :
  orderlyRun es initial = true ->
  let s := run es initial in
  settled s /\
  (localSpinState s = waiting_vrf \/ timers s = []) /\
  (localSpinState s <> waiting_vrf \/
   exists deadline n nextPoll,
     vrfTimeoutRef s = Some n /\
     balancePollRef s = Some (Pos.succ n) /\
     timers s =
       [ {| t_handle := n; t_due := deadline; t_every := None;
            t_callback := VrfExpired |};
         {| t_handle := Pos.succ n; t_due := nextPoll;
            t_every := Some BALANCE_POLL_INTERVAL_MS;
            t_callback := PollBalance |} ]).
Proof.
  intros Ho s.
  assert (Hs : settled s) by (apply settled_run; [reflexivity | exact Ho]).
  clearbody s. split; [exact Hs|].
  unfold settled in Hs. destruct (localSpinState s) eqn:Hst.
  1-3: split; [right; exact Hs | left; discriminate].
  split; [now left|]. right.
  destruct Hs as (deadline & n & _ & _ & Hv & Hb & nextPoll & Hts).
  now exists deadline, n, nextPoll.
Qed.

(** X13: The unmount cleanup of any state reached by an orderly run leaves no
    timer pending, so neither the hard timeout nor the balance poll can run
    after the page is gone. *)
Theorem unmount_cancels_detectors (es : list Event) :
  orderlyRun es initial = true ->
  let s := run es initial in
  timers (unmount s) = [] /\
  localSpinState (unmount s) = localSpinState s /\
  forall now id, fireTimer now id (unmount s) = unmount s.
Proof.
  intros Ho s.
  assert (Hs : settled s) by (apply settled_run; [reflexivity | exact Ho]).
  clearbody s.
  assert (Ht : timers (unmount s) = []).
  { unfold settled in Hs. unfold unmount.
    destruct (localSpinState s) eqn:Hst.
    1-3: destruct (vrfTimeoutRef s); cbn; destruct (balancePollRef s); cbn;
         rewrite Hs; reflexivity.
    destruct Hs as (deadline & n & _ & _ & Hv & Hb & nextPoll & Hts).
    rewrite Hv. cbn. rewrite Hb. cbn. rewrite Hts.
    assert (Hne : Pos.eqb (Pos.succ n) n = false) by (apply Pos.eqb_neq; lia).
    unfold isHandle. cbn. rewrite !Pos.eqb_refl, !Hne. cbn.
    now rewrite Pos.eqb_refl. }
  split; [exact Ht|]. split.
  - unfold unmount. destruct (vrfTimeoutRef s); cbn;
      destruct (balancePollRef s); reflexivity.
  - intros now id. apply fireTimer_unarmed. unfold armed. now rewrite Ht.
Qed.

(** ** Run-once guards *)

Lemma bootRun_snoc (es : list BootEvent) (e : BootEvent) (b : Boot) :
  bootRun (es ++ [e]) b = bootStep e (bootRun es b).
Proof. unfold bootRun. now rewrite fold_left_app. Qed.

(** X14: However the ready timeout, the rig state updates and the wallet
    updates interleave, the SDK is told that the app is ready exactly once
    if the timeout fired or a rig state arrived, and not at all otherwise;
    and a wallet connection is attempted exactly once if some wallet update
    found the wallet disconnected, a connector present and no connection
    under way, and not at all otherwise. *)
Theorem boot_calls_happen_once (es : list BootEvent) :
  let b := bootRun es booting in
  List.length (filter isReady (bootCalls b)) =
    (if existsb readies es then 1 else 0)%nat /\
  List.length (filter isConnect (bootCalls b)) =
    (if existsb connects es then 1 else 0)%nat /\
  readyRef b = existsb readies es /\
  autoConnectAttempted b = existsb connects es.
Proof.
  induction es as [|e es IH] using rev_ind; [now cbn|].
  rewrite bootRun_snoc, !existsb_app. simpl existsb. rewrite !orb_false_r.
  cbv zeta in IH |- *. destruct IH as (Hr & Hc & Href & Hatt).
  set (b := bootRun es booting) in *. clearbody b.
  rewrite <- Href in Hr. rewrite <- Hatt in Hc. rewrite <- Href, <- Hatt.
  clear Href Hatt.
  destruct e as [|[rig|]|c k p]; simpl; rewrite ?orb_false_r, ?orb_true_r.
  - unfold readyTimeout. destruct (readyRef b) eqn:Hb; [now rewrite Hr, Hc|].
    cbn. rewrite !filter_app, !length_app, Hr, Hc. cbn. repeat split; lia.
  - unfold readyOnRigState. destruct (readyRef b) eqn:Hb; [now rewrite Hr, Hc|].
    cbn. rewrite !filter_app, !length_app, Hr, Hc. cbn. repeat split; lia.
  - now rewrite Hr, Hc.
  - unfold autoConnectEffect.
    destruct (autoConnectAttempted b) eqn:Ha; simpl; [now rewrite Hr, Hc, Ha|].
    destruct c, k, p; cbn; rewrite ?Ha, ?filter_app, ?length_app, ?Hr, ?Hc;
      cbn; repeat split; lia.
Qed.

Lemma pool_grows_by_ups_witness :
  0 <= prizePool myRig + pendingEmissions myRig /\
  poolAfter myRig 3 = Some 9024.
Proof.
  split; [discriminate|].
  exact (pool_grows_by_ups myRig 3 (fun E => match E with eq_refl => I end)).
Defined.

Lemma enabled_button_spins_witness :
  isSpinDisabled connected false false false initial = false /\
  buttonLabel connected initial = "SPIN"%string.
Proof.
  split; [reflexivity|].
  exact (proj1 (proj1 (enabled_button_spins connected false false false initial
                         1000000 (Resolved []) (Resolved tt)) eq_refl)).
Defined.

Lemma submitted_write_arguments_witness :
  localSpinState initial = idle /\
  rigState connected = Some myRig /\
  0 <= price myRig /\
  fst (trySpin 1000000 connected myRig (Resolved []) (Resolved tt) initial)
    = Resolved tt /\
  exists account deadline maxPrice,
    lastWrite (handleSpin 1000000 connected (Resolved []) (Resolved tt) initial) =
      Some (WriteContract account 7 deadline maxPrice 1003).
Proof.
  split; [reflexivity|]. split; [reflexivity|]. split; [discriminate|].
  split; [reflexivity|].
  destruct (submitted_write_arguments 1000000 connected (Resolved []) myRig
              initial eq_refl eq_refl
              (fun E => match E with eq_refl => I end) eq_refl)
    as (account & deadline & maxPrice & Hw & _).
  exists account, deadline, maxPrice. exact Hw.
Defined.

Lemma timers_follow_the_state_witness :
  orderlyRun session initial = true /\ settled (run session initial).
Proof.
  split; [reflexivity|].
  exact (proj1 (timers_follow_the_state session eq_refl)).
Defined.

Lemma unmount_cancels_detectors_witness :
  orderlyRun [Click 1000000 connected (Resolved []) (Resolved tt);
              Receipt 1004000 (Some success)] initial = true /\
  timers (unmount awaitingVrf) = [].
Proof.
  split; [reflexivity|].
  exact (proj1 (unmount_cancels_detectors
                  [Click 1000000 connected (Resolved []) (Resolved tt);
                   Receipt 1004000 (Some success)] eq_refl)).
Defined.

End PageViewFacts.

(** * Properties of the polling variant of the hook *)

Module PollerFacts.
Import Poller.

#[local] Arguments String.eqb : simpl never.
#[local] Arguments GlobalSpin.spinIdOf : simpl never.
#[local] Arguments GlobalSpin.winIdOf : simpl never.

Section Facts.
Context `{GlobalSpin.Formatting}.

#[local] Abbreviation WinDelivery := (GlobalSpin.Delivery GlobalSpin.WinLog).
#[local] Abbreviation SpinDelivery := (GlobalSpin.Delivery GlobalSpin.SpinLog).
#[local] Abbreviation idOf d := (GlobalSpin.winIdOf (GlobalSpin.d_log d)).

(** ** [processWinEvent] and [processSpinEvent] in closed form *)

Lemma processWinEvent_recorded (d : WinDelivery) (isNew : bool) (h : Hook) :
  lastWinIdRef h = Some (idOf d) -> processWinEvent d isNew h = h.
Proof.
  intros E. unfold processWinEvent. now rewrite E, String.eqb_refl.
Qed.

Lemma processWinEvent_new (d : WinDelivery) (h : Hook) :
  lastWinIdRef h <> Some (idOf d) ->
  processWinEvent d true h =
  {| activeSpin := None;
     lastWin := Some (winOf d);
     isGlobalSpinning := false;
     showWinResult := true;
     lastProcessedBlockRef := lastProcessedBlockRef h;
     lastWinIdRef := Some (idOf d);
     spinTimeoutRef := spinTimeoutRef h;
     winDisplayRef := Some (nextHandle h);
     pollIntervalRef := pollIntervalRef h;
     pollCleanup := pollCleanup h;
     timers := survivors (winDisplayRef h)
                 (survivors (spinTimeoutRef h) (timers h)) ++
               [ {| t_handle := nextHandle h;
                    t_due := GlobalSpin.d_start d + 10000;
                    t_every := None; t_callback := HideWin |} ];
     nextHandle := Pos.succ (nextHandle h);
     console := console h |}.
Proof.
  intros Hne. unfold processWinEvent.
  assert (E : forall body : Hook,
            match lastWinIdRef h with
            | Some recorded =>
                if String.eqb recorded (idOf d) then h else body
            | None => body
            end = body).
  { intros body. destruct (lastWinIdRef h) as [recorded|]; [|reflexivity].
    destruct (String.eqb_spec recorded (idOf d)); [congruence | reflexivity]. }
  rewrite E. clear E Hne.
  destruct h as [sp lw live shown cur rec sref wref pref pc ts next out].
  destruct d as [log t0 [u|] t1]; destruct sref; destruct wref;
    cbn; rewrite ?String.eqb_refl; reflexivity.
Qed.

Lemma processWinEvent_old (d : WinDelivery) (h : Hook) :
  lastWinIdRef h <> Some (idOf d) ->
  processWinEvent d false h =
  {| activeSpin := None;
     lastWin := Some (winOf d);
     isGlobalSpinning := false;
     showWinResult := showWinResult h;
     lastProcessedBlockRef := lastProcessedBlockRef h;
     lastWinIdRef := Some (idOf d);
     spinTimeoutRef := spinTimeoutRef h;
     winDisplayRef := winDisplayRef h;
     pollIntervalRef := pollIntervalRef h;
     pollCleanup := pollCleanup h;
     timers := survivors (spinTimeoutRef h) (timers h);
     nextHandle := nextHandle h;
     console := console h |}.
Proof.
  intros Hne. unfold processWinEvent.
  assert (E : forall body : Hook,
            match lastWinIdRef h with
            | Some recorded =>
                if String.eqb recorded (idOf d) then h else body
            | None => body
            end = body).
  { intros body. destruct (lastWinIdRef h) as [recorded|]; [|reflexivity].
    destruct (String.eqb_spec recorded (idOf d)); [congruence | reflexivity]. }
  rewrite E. clear E Hne.
  destruct h as [sp lw live shown cur rec sref wref pref pc ts next out].
  destruct d as [log t0 [u|] t1]; destruct sref;
    cbn; rewrite ?String.eqb_refl; reflexivity.
Qed.

Lemma processSpinEvent_unfold (d : SpinDelivery) (h : Hook) :
  processSpinEvent d h =
  {| activeSpin :=
       Some (GlobalSpin.spinWithUser (GlobalSpin.d_user d)
               (GlobalSpin.newSpinOf (GlobalSpin.d_start d) (GlobalSpin.d_log d)));
     lastWin := lastWin h;
     isGlobalSpinning := true;
     showWinResult := false;
     lastProcessedBlockRef := lastProcessedBlockRef h;
     lastWinIdRef := lastWinIdRef h;
     spinTimeoutRef := Some (nextHandle h);
     winDisplayRef := winDisplayRef h;
     pollIntervalRef := pollIntervalRef h;
     pollCleanup := pollCleanup h;
     timers := survivors (spinTimeoutRef h) (timers h) ++
               [ {| t_handle := nextHandle h;
                    t_due := GlobalSpin.d_resumed d + GlobalSpin.SPIN_TIMEOUT_MS;
                    t_every := None;
                    t_callback :=
                      ExpireSpin (GlobalSpin.spinIdOf (GlobalSpin.d_log d)) |} ];
     nextHandle := Pos.succ (nextHandle h);
     console := console h |}.
Proof.
  destruct h as [sp lw live shown cur rec sref wref pref pc ts next out].
  destruct d as [log t0 [u|] t1]; destruct sref;
    cbn; rewrite ?String.eqb_refl; reflexivity.
Qed.

(** What processing never touches, and what it always records. *)
Lemma processWinEvent_frame (d : WinDelivery) (isNew : bool) (h : Hook) :
  let h' := processWinEvent d isNew h in
  lastProcessedBlockRef h' = lastProcessedBlockRef h /\
  console h' = console h /\
  pollIntervalRef h' = pollIntervalRef h /\
  pollCleanup h' = pollCleanup h /\
  lastWinIdRef h' = Some (idOf d).
Proof.
  destruct (lastWinIdRef h) as [recorded|] eqn:Hrec.
  - destruct (String.eqb_spec recorded (idOf d)) as [E|E].
    + subst recorded. simpl. rewrite (processWinEvent_recorded d isNew h Hrec).
      repeat split. exact Hrec.
    + assert (Hne : lastWinIdRef h <> Some (idOf d)) by congruence.
      simpl. destruct isNew;
        [rewrite (processWinEvent_new d h Hne)
        | rewrite (processWinEvent_old d h Hne)]; now repeat split.
  - assert (Hne : lastWinIdRef h <> Some (idOf d)) by congruence.
    simpl. destruct isNew;
      [rewrite (processWinEvent_new d h Hne)
      | rewrite (processWinEvent_old d h Hne)]; now repeat split.
Qed.

Lemma processSpins_frame (ds : list SpinDelivery) (h : Hook) :
  let h' := processSpins ds h in
  lastProcessedBlockRef h' = lastProcessedBlockRef h /\
  console h' = console h /\
  lastWinIdRef h' = lastWinIdRef h /\
  lastWin h' = lastWin h.
Proof.
  revert h. induction ds as [|d ds IH]; intros h; [now repeat split|].
  cbn [processSpins fold_left]. fold (processSpins ds (processSpinEvent d h)).
  destruct (IH (processSpinEvent d h)) as (A & B & C & D).
  assert (E : lastProcessedBlockRef (processSpinEvent d h) = lastProcessedBlockRef h /\
              console (processSpinEvent d h) = console h /\
              lastWinIdRef (processSpinEvent d h) = lastWinIdRef h /\
              lastWin (processSpinEvent d h) = lastWin h)
    by (rewrite processSpinEvent_unfold; now repeat split).
  destruct E as (A' & B' & C' & D').
  cbv zeta. now rewrite A, B, C, D, A', B', C', D'.
Qed.

Lemma last_nonempty {A} (x : A) (l : list A) (d1 d2 : A) :
  last (x :: l) d1 = last (x :: l) d2.
Proof.
  revert x. induction l as [|y l IH]; intros x; [reflexivity|].
  change (last (y :: l) d1 = last (y :: l) d2). apply IH.
Qed.

Lemma processWins_frame (ds : list WinDelivery) (h : Hook) :
  let h' := processWins ds h in
  lastProcessedBlockRef h' = lastProcessedBlockRef h /\
  console h' = console h /\
  lastWinIdRef h' = last (map winIdOfDelivery ds) (lastWinIdRef h).
Proof.
  revert h. induction ds as [|d ds IH]; intros h; [now repeat split|].
  cbn [processWins fold_left]. fold (processWins ds (processWinEvent d true h)).
  destruct (IH (processWinEvent d true h)) as (A & B & C).
  destruct (processWinEvent_frame d true h) as (A' & B' & _ & _ & C').
  cbv zeta in *. rewrite A, B, C, A', B', C'. repeat split.
  destruct ds as [|d' ds']; [reflexivity|].
  cbn [map]. change (last (winIdOfDelivery d :: winIdOfDelivery d' ::
                             map winIdOfDelivery ds') (lastWinIdRef h))
    with (last (winIdOfDelivery d' :: map winIdOfDelivery ds') (lastWinIdRef h)).
  apply last_nonempty.
Qed.

(** ** Deduplication of wins *)

(** X15: A win whose id is the one processed last is skipped entirely: calling
    [processWinEvent] again for it, at any later time and with either value
    of the new flag, changes no cell, no ref and no timer. *)
Theorem win_seen_again_is_skipped
    (d d' : WinDelivery) (isNew isNew' : bool) (h : Hook) :
  idOf d' = idOf d ->
  processWinEvent d' isNew' (processWinEvent d isNew h) =
  processWinEvent d isNew h.
Proof.
  intros Hid. apply processWinEvent_recorded.
  destruct (processWinEvent_frame d isNew h) as (_ & _ & _ & _ & E).
  now rewrite Hid.
Qed.

(** X16: Only the id processed last is remembered: after a different win has
    been processed in between, an earlier win is processed again in full. It
    becomes [lastWin] with a fresh timestamp, the highlight is set and a new
    display timer is armed. *)
Theorem only_latest_win_is_remembered
    (a b a' : WinDelivery) (isNew isNew' : bool) (h : Hook) :
  idOf a' = idOf a ->
  idOf b <> idOf a ->
  let h' := processWinEvent a' true
              (processWinEvent b isNew' (processWinEvent a isNew h)) in
  lastWin h' = Some (winOf a') /\
  showWinResult h' = true /\
  exists t,
    winDisplayRef h' = Some t /\
    In {| t_handle := t; t_due := GlobalSpin.d_start a' + 10000;
          t_every := None; t_callback := HideWin |} (timers h').
Proof.
  intros Hid Hne h'.
  set (hb := processWinEvent b isNew' (processWinEvent a isNew h)) in *.
  assert (Hrec : lastWinIdRef hb <> Some (idOf a')).
  { destruct (processWinEvent_frame b isNew' (processWinEvent a isNew h))
      as (_ & _ & _ & _ & E).
    fold hb in E. rewrite E, Hid. congruence. }
  subst h'. rewrite (processWinEvent_new a' hb Hrec). cbn.
  split; [reflexivity|]. split; [reflexivity|].
  exists (nextHandle hb). split; [reflexivity|].
  apply in_or_app. right. now left.
Qed.

(** ** One poll *)


(** X17: A poll that finds no block beyond the last processed one does nothing:
    no logs are requested, no cell, ref or timer changes, nothing is
    logged. *)
Theorem poll_without_new_block_is_idle
    (a : Answers) (h : Hook) (lastProcessed currentBlock : Z) :
  lastProcessedBlockRef h = Some lastProcessed ->
  head a = Resolved currentBlock ->
  currentBlock <= lastProcessed ->
  pollForEvents a h = h /\
  forall wins' spins',
    pollForEvents {| head := head a; wins := wins'; spins := spins' |} h = h.
Proof.
  intros Hcur Hhead Hle.
  assert (E : forall a', head a' = Resolved currentBlock -> pollForEvents a' h = h).
  { intros a' Ha'. unfold pollForEvents. rewrite Ha', Hcur.
    destruct (Z.ltb_spec currentBlock (lastProcessed + 1)); [reflexivity | lia]. }
  split; [now apply E|]. intros wins' spins'. now apply E.
Qed.


(** X19: A poll that logs a failure leaves the cursor where it was, so the next
    poll asks for the same blocks again; a poll that moves the cursor logs
    nothing.  When the head block cannot be read nothing changes but the
    console; when the Win logs cannot be read, the Spins of the range have
    already been processed and will be processed again. *)
Theorem failed_poll_keeps_cursor (a : Answers) (h : Hook) :
  let h' := pollForEvents a h in
  (console h' = console h \/
   exists err,
     console h' = console h ++ [("Failed to poll for events: " ++ err)%string] /\
     lastProcessedBlockRef h' = lastProcessedBlockRef h) /\
  (forall err, head a = Rejected err -> h' = pollFailed err h) /\
  (forall err lastProcessed currentBlock spinLogs,
     lastProcessedBlockRef h = Some lastProcessed ->
     head a = Resolved currentBlock ->
     lastProcessed < currentBlock ->
     spins a (lastProcessed + 1) currentBlock = Resolved spinLogs ->
     wins a (lastProcessed + 1) currentBlock = Rejected err ->
     h' = pollFailed err (processSpins spinLogs h)).
Proof.
  intros h'. split; [|split].
  - subst h'. unfold pollForEvents.
    destruct (head a) as [currentBlock|err];
      [|right; exists err; now split].
    destruct (lastProcessedBlockRef h) as [lastProcessed|] eqn:Hcur.
    + destruct (currentBlock <? lastProcessed + 1); [now left|].
      destruct (spins a _ _) as [spinLogs|err];
        [|right; exists err; now split].
      destruct (processSpins_frame spinLogs h) as (A & B & _).
      destruct (wins a _ _) as [winLogs|err].
      * left. cbn.
        destruct (processWins_frame winLogs (processSpins spinLogs h))
          as (_ & B' & _).
        cbv zeta in *. now rewrite B', B.
      * right. exists err. cbn. cbv zeta in *. rewrite A, B, Hcur. now split.
    + destruct (wins a _ _) as [winLogs|err];
        [|right; exists err; now split].
      left. cbn. destruct (latestOf winLogs) as [latest|]; [|reflexivity].
      now destruct (processWinEvent_frame latest false h) as (_ & B & _).
  - intros err Hhead. subst h'. unfold pollForEvents. now rewrite Hhead.
  - intros err lastProcessed currentBlock spinLogs Hcur Hhead Hlt Hs Hw.
    subst h'. unfold pollForEvents. rewrite Hhead, Hcur.
    destruct (Z.ltb_spec currentBlock (lastProcessed + 1)); [lia|].
    now rewrite Hs, Hw.
Qed.

(** X20: A poll over new blocks applies the Spins of the range and then its
    Wins, so a spin never outlives a win found in the same poll.  When the
    range has Win logs and the last of them is not the win processed just
    before it, then after the poll no spin is active, that last win is shown
    highlighted with its display timer armed, and the cursor is the head. *)
Theorem poll_applies_spins_then_wins
    (a : Answers) (h : Hook) (lastProcessed currentBlock : Z)
    (spinLogs : list SpinDelivery) (winLogs : list WinDelivery)
    (latest : WinDelivery) :
  lastProcessedBlockRef h = Some lastProcessed ->
  head a = Resolved currentBlock ->
  lastProcessed < currentBlock ->
  spins a (lastProcessed + 1) currentBlock = Resolved spinLogs ->
  wins a (lastProcessed + 1) currentBlock = Resolved (winLogs ++ [latest]) ->
  last (map winIdOfDelivery winLogs) (lastWinIdRef h) <> winIdOfDelivery latest ->
  let h' := pollForEvents a h in
  activeSpin h' = None /\
  isGlobalSpinning h' = false /\
  lastWin h' = Some (winOf latest) /\
  showWinResult h' = true /\
  lastWinIdRef h' = winIdOfDelivery latest /\
  lastProcessedBlockRef h' = Some currentBlock /\
  exists t,
    winDisplayRef h' = Some t /\
    In {| t_handle := t; t_due := GlobalSpin.d_start latest + 10000;
          t_every := None; t_callback := HideWin |} (timers h').
Proof.
  intros Hcur Hhead Hlt Hs Hw Hfresh h'.
  set (before := processWins winLogs (processSpins spinLogs h)).
  assert (E : h' = setLastProcessedBlockRef (Some currentBlock)
                     (processWinEvent latest true before)).
  { subst h' before. unfold pollForEvents. rewrite Hhead, Hcur.
    destruct (Z.ltb_spec currentBlock (lastProcessed + 1)); [lia|].
    rewrite Hs, Hw. unfold processWins. now rewrite fold_left_app. }
  assert (Hrec : lastWinIdRef before <> Some (idOf latest)).
  { subst before.
    destruct (processWins_frame winLogs (processSpins spinLogs h)) as (_ & _ & C).
    destruct (processSpins_frame spinLogs h) as (_ & _ & C' & _).
    cbv zeta in *. rewrite C, C'. exact Hfresh. }
  rewrite E, (processWinEvent_new latest before Hrec). cbn.
  repeat split.
  exists (nextHandle before). split; [reflexivity|].
  apply in_or_app. right. now left.
Qed.

(** ** The cursor over time *)







(** ** Timers are accounted for *)




















End Facts.

(** ** The model run on concrete polls *)

Lemma win_seen_again_is_skipped_witness :
  GlobalSpin.winIdOf
    (GlobalSpin.d_log (GlobalSpin.delivered GlobalSpin.jackpotLog 9000)) =
  GlobalSpin.winIdOf
    (GlobalSpin.d_log (GlobalSpin.delivered GlobalSpin.jackpotLog 5)) /\
  @processWinEvent GlobalSpin.rawFormatting
    (GlobalSpin.delivered GlobalSpin.jackpotLog 9000) true seeded = seeded.
Proof.
  split; [reflexivity|].
  exact (@win_seen_again_is_skipped GlobalSpin.rawFormatting
           (GlobalSpin.delivered GlobalSpin.jackpotLog 5)
           (GlobalSpin.delivered GlobalSpin.jackpotLog 9000)
           false true
           (setLastProcessedBlockRef (Some 1000) initial) eq_refl).
Defined.

Lemma only_latest_win_is_remembered_witness :
  GlobalSpin.winIdOf bobWinLog <> GlobalSpin.winIdOf GlobalSpin.jackpotLog /\
  showWinResult
    (@processWinEvent GlobalSpin.rawFormatting
       (GlobalSpin.delivered GlobalSpin.jackpotLog 9000) true
       (@processWinEvent GlobalSpin.rawFormatting
          (GlobalSpin.delivered bobWinLog 70) true
          (@processWinEvent GlobalSpin.rawFormatting
             (GlobalSpin.delivered GlobalSpin.jackpotLog 5) false initial)))
    = true.
Proof.
  assert (Hne : GlobalSpin.winIdOf bobWinLog <>
                GlobalSpin.winIdOf GlobalSpin.jackpotLog)
    by (vm_compute; discriminate).
  split; [exact Hne|].
  exact (proj1 (proj2
           (@only_latest_win_is_remembered GlobalSpin.rawFormatting
              (GlobalSpin.delivered GlobalSpin.jackpotLog 5)
              (GlobalSpin.delivered bobWinLog 70)
              (GlobalSpin.delivered GlobalSpin.jackpotLog 9000)
              false true initial eq_refl Hne))).
Defined.

Lemma poll_without_new_block_is_idle_witness :
  lastProcessedBlockRef seeded = Some 1000 /\
  1000 <= 1000 /\
  @pollForEvents GlobalSpin.rawFormatting
    (nodeAt 1000 [] [GlobalSpin.delivered bobWinLog 70]) seeded = seeded.
Proof.
  split; [reflexivity|]. split; [discriminate|].
  exact (proj1 (@poll_without_new_block_is_idle GlobalSpin.rawFormatting
                  (nodeAt 1000 [] [GlobalSpin.delivered bobWinLog 70]) seeded
                  1000 1000 eq_refl eq_refl
                  (fun E => match E with eq_refl => I end))).
Defined.


Lemma failed_poll_keeps_cursor_witness :
  head unreachable = Rejected "network error" /\
  @pollForEvents GlobalSpin.rawFormatting unreachable seeded =
    pollFailed "network error" seeded.
Proof.
  split; [reflexivity|].
  exact (proj1 (proj2 (@failed_poll_keeps_cursor GlobalSpin.rawFormatting
                         unreachable seeded))
           "network error"%string eq_refl).
Defined.

Lemma poll_applies_spins_then_wins_witness :
  lastProcessedBlockRef seeded = Some 1000 /\
  1000 < 1004 /\
  activeSpin
    (@pollForEvents GlobalSpin.rawFormatting
       (nodeAt 1004 [GlobalSpin.delivered GlobalSpin.bobSpinLog 60]
          ([] ++ [GlobalSpin.delivered bobWinLog 70])) seeded) = None.
Proof.
  assert (Hfresh : last (map winIdOfDelivery []) (lastWinIdRef seeded) <>
                   winIdOfDelivery (GlobalSpin.delivered bobWinLog 70))
    by (vm_compute; discriminate).
  split; [reflexivity|]. split; [reflexivity|].
  exact (proj1 (@poll_applies_spins_then_wins GlobalSpin.rawFormatting
                  (nodeAt 1004 [GlobalSpin.delivered GlobalSpin.bobSpinLog 60]
                     ([] ++ [GlobalSpin.delivered bobWinLog 70]))
                  seeded 1000 1004
                  [GlobalSpin.delivered GlobalSpin.bobSpinLog 60] []
                  (GlobalSpin.delivered bobWinLog 70)
                  eq_refl eq_refl eq_refl eq_refl eq_refl Hfresh)).
Defined.

End PollerFacts.
